(** * Shiptivity API: the client table and the priority re-ranking of
      [PUT /api/v1/clients/:id] (server.js)

    The service keeps one SQLite table [clients].  Every handler of
    server.js is embedded as a function of the current table that returns
    the HTTP response and the table it leaves behind; every SQL statement
    the handlers run is a function on the table, applied in the order the
    handler runs it. *)

From Stdlib Require Import String Ascii.
From Stdlib Require Import ZArith Bool Lia List Permutation.
Import ListNotations.

#[local] Open Scope string_scope.
#[local] Open Scope Z_scope.

(** ** Data model *)

(** A row of the [clients] table.  [id] is the primary key; [name] and
    [description] are the descriptive columns; [status] is the swimlane and
    [priority] the rank inside it. *)
Record Client : Type := mkClient {
  id : Z;
  name : string;
  description : string;
  status : string;
  priority : Z
}.

(** The table, in row order. *)
Definition Db : Type := list Client.

(** The result of [parseInt]: [NaN] or an integer-valued number. *)
Inductive jsnum : Type :=
| NaN
| Num (z : Z).

(** The JSON body of a PUT: [let { status, priority } = req.body].
    [None] is [undefined]; the documented types are a string and an
    integer. *)
Record Body : Type := mkBody {
  body_status : option string;
  body_priority : option Z
}.

Record MessageObj : Type := mkMessage {
  message : string;
  long_message : string
}.

(** What [res.send] is given. *)
Inductive Payload : Type :=
| SendMessage (m : MessageObj)
| SendClients (l : list Client)
| SendClient (c : option Client).

Record Response : Type := mkResponse {
  statusCode : Z;
  sent : Payload
}.

(** [{ valid: true }] or [{ valid: false, messageObj }]. *)
Inductive Validation : Type :=
| Valid
| Invalid (messageObj : MessageObj).

Definition valid (v : Validation) : bool :=
  match v with
  | Valid => true
  | Invalid _ => false
  end.

(** ** JavaScript primitives used by the handlers *)

Definition isWhiteSpace (c : ascii) : bool :=
  let n := Z.of_nat (nat_of_ascii c) in
  ((9 <=? n) && (n <=? 13)) || (n =? 32).

Fixpoint trimStart (s : string) : string :=
  match s with
  | EmptyString => EmptyString
  | String c s' => if isWhiteSpace c then trimStart s' else s
  end.

Definition digitValue (c : ascii) : option Z :=
  let n := Z.of_nat (nat_of_ascii c) in
  if (48 <=? n) && (n <=? 57) then Some (n - 48) else None.

(** The value of the longest prefix of decimal digits; [acc] is [None]
    until a first digit was read. *)
Fixpoint digits (s : string) (acc : option Z) : option Z :=
  match s with
  | EmptyString => acc
  | String c s' =>
      match digitValue c with
      | Some d =>
          digits s' (Some (10 * match acc with Some a => a | None => 0 end + d))
      | None => acc
      end
  end.

(** [parseInt(s, 10)]: leading white space is skipped, one sign is read,
    then the longest run of decimal digits; [NaN] when there is no digit.
    The value is kept exact (ids stay below 2^53). *)
Definition parseInt (s : string) : jsnum :=
  let t := trimStart s in
  let '(sign, r) :=
    match t with
    | String "-" r => (-1, r)
    | String "+" r => (1, r)
    | _ => (1, t)
    end in
  match digits r None with
  | None => NaN
  | Some m => Num (sign * m)
  end.

(** [Number.isNaN]. *)
Definition isNaN (n : jsnum) : bool :=
  match n with
  | NaN => true
  | Num _ => false
  end.

(** [client.id === id], and also the SQL test [id = ?] with [id] bound:
    nothing equals [NaN]. *)
Definition idMatches (n : jsnum) (c : Client) : bool :=
  match n with
  | NaN => false
  | Num i => id c =? i
  end.

(** Truthiness of a string: only the empty string is falsy. *)
Definition truthy (s : string) : bool := negb (s =? "")%string.

(** ** SQL statements *)

(** [UPDATE clients SET ... WHERE ...]: every row that passes the test is
    rewritten in place. *)
Definition sql_update (where_ : Client -> bool) (set : Client -> Client)
  (db : Db) : Db :=
  map (fun c => if where_ c then set c else c) db.

Definition set_priority (p : Z) (c : Client) : Client :=
  mkClient (id c) (name c) (description c) (status c) p.

Definition set_status_priority (s : string) (p : Z) (c : Client) : Client :=
  mkClient (id c) (name c) (description c) s p.

Definition inLane (s : string) (c : Client) : bool := (status c =? s)%string.

(** [select * from clients where id = ? limit 1] *)
Definition getById (n : jsnum) (db : Db) : option Client :=
  find (idMatches n) db.

(** [select * from clients where status = ?] *)
Definition listByLane (s : string) (db : Db) : list Client :=
  filter (inLane s) db.

(** [SELECT MAX(priority) as maxPriority FROM clients WHERE status = ?]:
    [None] is SQL NULL, the answer on an empty lane. *)
Definition sql_max (l : list Z) : option Z :=
  fold_left
    (fun acc p => match acc with None => Some p | Some m => Some (Z.max m p) end)
    l None.

Definition maxPriority (s : string) (db : Db) : option Z :=
  sql_max (map priority (listByLane s db)).

(** [row && row.maxPriority ? row.maxPriority : 0]: NULL and 0 are falsy. *)
Definition maxPriorityOrZero (m : option Z) : Z :=
  match m with
  | Some v => if v =? 0 then 0 else v
  | None => 0
  end.

(** [UPDATE clients SET priority = priority - 1 WHERE status = ? AND priority > ?] *)
Definition closeGap (s : string) (p : Z) (db : Db) : Db :=
  sql_update (fun c => inLane s c && (p <? priority c))
             (fun c => set_priority (priority c - 1) c) db.

(** [UPDATE clients SET priority = priority + 1 WHERE status = ? AND priority >= ?] *)
Definition makeRoom (s : string) (p : Z) (db : Db) : Db :=
  sql_update (fun c => inLane s c && (p <=? priority c))
             (fun c => set_priority (priority c + 1) c) db.

(** [UPDATE clients SET status = ?, priority = ? WHERE id = ?] *)
Definition setPlacement (n : jsnum) (s : string) (p : Z) (db : Db) : Db :=
  sql_update (idMatches n) (set_status_priority s p) db.

(** [UPDATE clients SET priority = priority - 1
     WHERE status = ? AND priority > ? AND priority <= ?] *)
Definition shiftUpBetween (s : string) (lo hi : Z) (db : Db) : Db :=
  sql_update (fun c => inLane s c && (lo <? priority c) && (priority c <=? hi))
             (fun c => set_priority (priority c - 1) c) db.

(** [UPDATE clients SET priority = priority + 1
     WHERE status = ? AND priority >= ? AND priority < ?] *)
Definition shiftDownBetween (s : string) (lo hi : Z) (db : Db) : Db :=
  sql_update (fun c => inLane s c && (lo <=? priority c) && (priority c <? hi))
             (fun c => set_priority (priority c + 1) c) db.

(** [UPDATE clients SET priority = ? WHERE id = ?] *)
Definition setPriorityById (n : jsnum) (p : Z) (db : Db) : Db :=
  sql_update (idMatches n) (set_priority p) db.

(** ** Validation helpers *)

Definition validateId (db : Db) (n : jsnum) : Validation :=
  if isNaN n then
    Invalid (mkMessage "Invalid id provided." "Id can only be integer.")
  else
    match getById n db with
    | None =>
        Invalid (mkMessage "Invalid id provided."
                           "Cannot find client with that id.")
    | Some _ => Valid
    end.

(** Defined in server.js; no handler calls it. *)
Definition validatePriority (n : jsnum) : Validation :=
  if isNaN n then
    Invalid (mkMessage "Invalid priority provided."
                       "Priority can only be positive integer.")
  else Valid.

(** ** Handlers *)

(** [GET /api/v1/clients?status=...]; [None] when the query has no
    [status]. *)
Definition getClients (q : option string) (db : Db) : Response :=
  match q with
  | Some s =>
      if truthy s then
        if negb (s =? "backlog")%string
           && negb (s =? "in-progress")%string
           && negb (s =? "complete")%string
        then
          mkResponse 400
            (SendMessage
               (mkMessage "Invalid status provided."
                  "Status can only be one of the following: [backlog | in-progress | complete]."))
        else mkResponse 200 (SendClients (listByLane s db))
      else mkResponse 200 (SendClients db)
  | None => mkResponse 200 (SendClients db)
  end.

(** [GET /api/v1/clients/:id] *)
Definition getClient (param : string) (db : Db) : Response :=
  let n := parseInt param in
  match validateId db n with
  | Invalid m => mkResponse 400 (SendMessage m)
  | Valid => mkResponse 200 (SendClient (getById n db))
  end.

(** [status && status !== client.status] *)
Definition movesLane (st : option string) (client : Client) : bool :=
  match st with
  | Some s => truthy s && negb (s =? status client)%string
  | None => false
  end.

(** The update code of the PUT handler, between its two marker comments:
    the statements it runs on the table for the row [client] found for
    [n].  In the first branch the status is a truthy string, so its
    [None] case is never reached. *)
Definition updateCode (n : jsnum) (client : Client) (b : Body) (db : Db) : Db :=
  if movesLane (body_status b) client then
    match body_status b with
    | None => db
    | Some s =>
        let db1 := closeGap (status client) (priority client) db in
        match body_priority b with
        | Some p =>
            let newPriority := p in
            let db2 := makeRoom s newPriority db1 in
            setPlacement n s newPriority db2
        | None =>
            let newPriority := maxPriorityOrZero (maxPriority s db1) + 1 in
            setPlacement n s newPriority db1
        end
    end
  else
    match body_priority b with
    | Some p =>
        if negb (p =? priority client) then
          let db1 :=
            if priority client <? p then
              shiftUpBetween (status client) (priority client) p db
            else if p <? priority client then
              shiftDownBetween (status client) p (priority client) db
            else db in
          setPriorityById n p db1
        else db
    | None => db
    end.

(** [PUT /api/v1/clients/:id]: the response and the table afterwards.
    [clients.find] cannot miss once [validateId] has passed; were it to,
    reading [client.status] would throw, which Express answers with 500. *)
Definition putClient (param : string) (b : Body) (db : Db) : Response * Db :=
  let n := parseInt param in
  match validateId db n with
  | Invalid m => (mkResponse 400 (SendMessage m), db)
  | Valid =>
      let clients := db in
      match find (idMatches n) clients with
      | None => (mkResponse 500 (SendClients []), db)
      | Some client =>
          let db' := updateCode n client b db in
          (mkResponse 200 (SendClients db'), db')
      end
  end.

(** ** Sample table of the scenarios *)

Definition P1 : Client := mkClient 1 "P1" "" "backlog" 1.
Definition P2 : Client := mkClient 2 "P2" "" "backlog" 2.
Definition P3 : Client := mkClient 3 "P3" "" "backlog" 3.
Definition Q1 : Client := mkClient 4 "Q1" "" "in-progress" 1.
Definition Q2 : Client := mkClient 5 "Q2" "" "in-progress" 2.

Definition backlog3 : Db := [P1; P2; P3].
Definition board : Db := [P1; P2; P3; Q1; Q2].

(** ** The contiguity invariant *)

(** The priorities found in lane [s], in row order. *)
Definition lanePriorities (s : string) (db : Db) : list Z :=
  map priority (listByLane s db).

(** A list of priorities is exactly [{1..N}], [N] its length: no value
    twice, and a value occurs if and only if it lies in [1..N]. *)
Definition contiguous (l : list Z) : Prop :=
  NoDup l /\ forall p, In p l <-> 1 <= p <= Z.of_nat (length l).

Definition laneInvariant (db : Db) : Prop :=
  forall s, contiguous (lanePriorities s db).

(** [id] is the primary key of the table. *)
Definition uniqueIds (db : Db) : Prop := NoDup (map id db).

(** Executable versions, for concrete tables. *)
Fixpoint nodupb (l : list Z) : bool :=
  match l with
  | [] => true
  | x :: r => negb (existsb (Z.eqb x) r) && nodupb r
  end.

Definition contiguousb (l : list Z) : bool :=
  nodupb l
  && forallb (fun p => (1 <=? p) && (p <=? Z.of_nat (length l))) l
  && forallb (fun k => existsb (Z.eqb (Z.of_nat k)) l) (seq 1 (length l)).

Definition laneInvariantb (db : Db) : bool :=
  forallb (fun c => contiguousb (lanePriorities (status c) db)) db.

Definition uniqueIdsb (db : Db) : bool := nodupb (map id db).

(** The effect of the two lane-wide shifts on one priority. *)
Definition down (q p : Z) : Z := if q <? p then p - 1 else p.
Definition up (q p : Z) : Z := if q <=? p then p + 1 else p.

(** ** The cases of the update, in the words of the specification *)

(** Case A, destination given (spec 4.2): the moved row is placed at
    [(s, p)]; rows of the old lane below it move up by one, rows of the
    destination lane at [p] or below move down by one. *)
Definition spec_laneChangeAt (n : jsnum) (client : Client) (s : string) (p : Z)
  (c : Client) : Client :=
  if idMatches n c then set_status_priority s p c
  else if inLane (status client) c && (priority client <? priority c)
       then set_priority (priority c - 1) c
  else if inLane s c && (p <=? priority c)
       then set_priority (priority c + 1) c
  else c.

(** Case A, no destination given (spec 4.2): the moved row is appended
    at [p]; only the old lane is renumbered. *)
Definition spec_laneChangeAppend (n : jsnum) (client : Client) (s : string) (p : Z)
  (c : Client) : Client :=
  if idMatches n c then set_status_priority s p c
  else if inLane (status client) c && (priority client <? priority c)
       then set_priority (priority c - 1) c
  else c.

(** Case B (spec 4.2): the moved row takes priority [p]; moving down,
    the rows of its lane in [(old, p]] lose one; moving up, the rows in
    [[p, old)] gain one. *)
Definition spec_rerankAt (n : jsnum) (client : Client) (p : Z) (c : Client) : Client :=
  if idMatches n c then set_priority p c
  else if priority client <? p then
    if inLane (status client) c
       && (priority client <? priority c) && (priority c <=? p)
    then set_priority (priority c - 1) c else c
  else if p <? priority client then
    if inLane (status client) c
       && (p <=? priority c) && (priority c <? priority client)
    then set_priority (priority c + 1) c else c
  else c.

(** [maxPriorityInLane] (spec 4.1): the highest priority in the lane, 0
    when the lane is empty. *)
Definition spec_maxPriorityInLane (s : string) (db : Db) : Z :=
  match lanePriorities s db with
  | [] => 0
  | x :: r => fold_left Z.max r x
  end.

(** The rows that [WHERE id = ?] does not select. *)
Definition others (n : jsnum) (db : Db) : Db :=
  filter (fun c => negb (idMatches n c)) db.

(** When the requested priority fits the lane it goes to: [1..N+1] in
    the lane a row moves into, [1..N] in the lane it stays in. *)
Definition priorityFits (client : Client) (b : Body) (db : Db) : Prop :=
  match body_priority b with
  | None => True
  | Some p =>
      if movesLane (body_status b) client then
        match body_status b with
        | Some s => 1 <= p <= Z.of_nat (length (listByLane s db)) + 1
        | None => True
        end
      else 1 <= p <= Z.of_nat (length (listByLane (status client) db))
  end.

(** ** Further notions used to describe the handlers *)

(** No two clients of a lane share a priority (the comment above the PUT
    handler: "No two clients in the same status should have the same
    priority"). *)
Definition laneDistinct (db : Db) : Prop :=
  forall s, NoDup (lanePriorities s db).

Definition laneDistinctb (db : Db) : bool :=
  forallb (fun c => nodupb (lanePriorities (status c) db)) db.

(** The effect of the same-lane statements on one priority of the lane,
    for a client going from [old] to [p]. *)
Definition rerankPriority (old p q : Z) : Z :=
  if old <? p then
    if (old <? q) && (q <=? p) then q - 1 else q
  else if p <? old then
    if (p <=? q) && (q <? old) then q + 1 else q
  else q.

(** The status and the priority the PUT handler stores for the addressed
    client, read off its two placement statements. *)
Definition storedStatus (client : Client) (b : Body) : string :=
  match body_status b with
  | Some s => if truthy s then s else status client
  | None => status client
  end.

Definition storedPriority (client : Client) (b : Body) (db : Db) : Z :=
  match body_priority b with
  | Some p => p
  | None =>
      if movesLane (body_status b) client
      then spec_maxPriorityInLane (storedStatus client b) db + 1
      else priority client
  end.

(** The API routes that read or write the table.  Node runs one handler
    at a time and every statement of better-sqlite3 is synchronous, so a
    sequence of requests is served one after the other. *)
Inductive Request : Type :=
| GetClients (q : option string)
| GetClient (param : string)
| PutClient (param : string) (b : Body).

Definition handle (r : Request) (db : Db) : Response * Db :=
  match r with
  | GetClients q => (getClients q db, db)
  | GetClient param => (getClient param db, db)
  | PutClient param b => putClient param b db
  end.

Fixpoint serve (rs : list Request) (db : Db) : list Response * Db :=
  match rs with
  | [] => ([], db)
  | r :: rs' =>
      let '(resp, db1) := handle r db in
      let '(resps, db2) := serve rs' db1 in
      (resp :: resps, db2)
  end.

(** A PUT fits the table it is served on when its priority, if any, is
    in the range of the lane it goes to; other requests always fit. *)
Definition requestFits (r : Request) (db : Db) : Prop :=
  match r with
  | PutClient param b =>
      match getById (parseInt param) db with
      | Some client => priorityFits client b db
      | None => True
      end
  | _ => True
  end.

Fixpoint allFit (rs : list Request) (db : Db) : Prop :=
  match rs with
  | [] => True
  | r :: rs' => requestFits r db /\ allFit rs' (snd (handle r db))
  end.

(** ** Sanity checks of the embedding *)

Example parseInt_digits : parseInt "999" = Num 999.
Proof. reflexivity. Qed.

Example parseInt_prefix : parseInt "  -12px" = Num (-12).
Proof. reflexivity. Qed.

Example parseInt_no_digit : parseInt "abc" = NaN /\ parseInt "" = NaN.
Proof. split; reflexivity. Qed.

Example scenario3 :
  snd (putClient "3" (mkBody None (Some 1)) backlog3)
  = [set_priority 2 P1; set_priority 3 P2; set_priority 1 P3].
Proof. reflexivity. Qed.

Example scenario5 :
  fst (putClient "999" (mkBody None None) backlog3)
  = mkResponse 400
      (SendMessage
         (mkMessage "Invalid id provided." "Cannot find client with that id.")).
Proof. reflexivity. Qed.

(** ** Facts on lists of priorities *)

Lemma nodupb_NoDup (l : list Z) : nodupb l = true -> NoDup l.
Proof.
  induction l as [|x r IH]; simpl; intros H.
  - constructor.
  - apply andb_true_iff in H as [Hx Hr].
    constructor; [|now apply IH].
    intros Hin. apply negb_true_iff in Hx.
    assert (existsb (Z.eqb x) r = true) as E.
    { apply existsb_exists. exists x. split; [assumption | apply Z.eqb_refl]. }
    congruence.
Qed.

Lemma contiguousb_sound (l : list Z) : contiguousb l = true -> contiguous l.
Proof.
  unfold contiguousb, contiguous. intros H.
  apply andb_true_iff in H as [H Hall].
  apply andb_true_iff in H as [Hnd Hrng].
  split; [now apply nodupb_NoDup|].
  intros p. split.
  - intros Hin. rewrite forallb_forall in Hrng.
    specialize (Hrng p Hin). lia.
  - intros Hp. rewrite forallb_forall in Hall.
    specialize (Hall (Z.to_nat p)).
    assert (In (Z.to_nat p) (seq 1 (length l))) as Hs by (apply in_seq; lia).
    apply Hall, existsb_exists in Hs as (x & Hx & E).
    apply Z.eqb_eq in E. replace p with x by lia. exact Hx.
Qed.

Lemma contiguous_perm (l l' : list Z) :
  Permutation l l' -> contiguous l -> contiguous l'.
Proof.
  intros HP [Hnd Hin]. split.
  - eapply Permutation_NoDup; eassumption.
  - intros p. rewrite <- (Permutation_length HP), <- Hin.
    split; apply Permutation_in; [symmetry|]; assumption.
Qed.

Lemma contiguous_nil : contiguous [].
Proof.
  split; [constructor|]. intros p; simpl; lia.
Qed.

(** Taking [q] out of a contiguous list and closing the gap. *)
Lemma contiguous_remove (q : Z) (l : list Z) :
  contiguous (q :: l) -> contiguous (map (down q) l).
Proof.
  intros [Hnd Hin]. inversion Hnd as [|? ? Hq Hl]; subst.
  assert (forall p, In p l -> p <> q) as Hne by (intros p Hp ->; contradiction).
  assert (forall p, In p l -> 1 <= p <= Z.of_nat (length l) + 1) as Hr.
  { intros p Hp. assert (In p (q :: l)) as H by now right.
    apply Hin in H. simpl length in H. lia. }
  assert (1 <= q <= Z.of_nat (length l) + 1) as Hqr.
  { assert (In q (q :: l)) as H by now left.
    apply Hin in H. simpl length in H. lia. }
  split.
  - apply NoDup_map_NoDup_ForallPairs; [|assumption].
    intros a b Ha Hb. apply Hne in Ha, Hb. unfold down.
    destruct (Z.ltb_spec q a), (Z.ltb_spec q b); lia.
  - intros p. rewrite length_map, in_map_iff. split.
    + intros (a & <- & Ha). pose proof (Hr a Ha). pose proof (Hne a Ha).
      unfold down. destruct (Z.ltb_spec q a); lia.
    + intros Hp. destruct (Z.ltb_spec p q) as [Hlt | Hge].
      * exists p. split; [unfold down; destruct (Z.ltb_spec q p); lia|].
        assert (In p (q :: l)) as H by (apply Hin; simpl length; lia).
        destruct H as [H | H]; [lia | exact H].
      * exists (p + 1). split; [unfold down; destruct (Z.ltb_spec q (p + 1)); lia|].
        assert (In (p + 1) (q :: l)) as H by (apply Hin; simpl length; lia).
        destruct H as [H | H]; [lia | exact H].
Qed.

(** Making room at [q] in a contiguous list and putting [q] there. *)
Lemma contiguous_insert (q : Z) (l : list Z) :
  contiguous l -> 1 <= q <= Z.of_nat (length l) + 1 ->
  contiguous (q :: map (up q) l).
Proof.
  intros [Hnd Hin] Hq. split.
  - constructor.
    + rewrite in_map_iff. intros (a & E & _). unfold up in E.
      destruct (Z.leb_spec q a); lia.
    + apply NoDup_map_NoDup_ForallPairs; [|assumption].
      intros a b _ _. unfold up.
      destruct (Z.leb_spec q a), (Z.leb_spec q b); lia.
  - intros p. simpl length. rewrite length_map. simpl In. rewrite in_map_iff.
    split.
    + intros [<- | (a & <- & Ha)]; [lia|].
      apply Hin in Ha. unfold up. destruct (Z.leb_spec q a); lia.
    + intros Hp. destruct (Z.eq_dec q p) as [E | NE]; [now left | right].
      destruct (Z.ltb_spec p q).
      * exists p. split; [unfold up; destruct (Z.leb_spec q p); lia|].
        apply Hin. lia.
      * exists (p - 1). split; [unfold up; destruct (Z.leb_spec q (p - 1)); lia|].
        apply Hin. lia.
Qed.

(** [MAX(priority)] of a contiguous lane is its size; the JavaScript
    fallback turns NULL into 0. *)
Lemma sql_max_fold (l : list Z) (m : Z) :
  fold_left
    (fun acc p => match acc with None => Some p | Some m => Some (Z.max m p) end)
    l (Some m) = Some (fold_left Z.max l m).
Proof.
  revert m. induction l as [|x r IH]; intros m; simpl; [reflexivity | apply IH].
Qed.

Lemma fold_max_ge (l : list Z) (m : Z) : m <= fold_left Z.max l m.
Proof.
  revert m. induction l as [|x r IH]; intros m; simpl; [lia|].
  specialize (IH (Z.max m x)). lia.
Qed.

Lemma fold_max_upper (l : list Z) (m : Z) :
  forall p, In p l -> p <= fold_left Z.max l m.
Proof.
  revert m. induction l as [|x r IH]; intros m p; simpl; [tauto|].
  intros [<- | Hp]; [|now apply IH].
  pose proof (fold_max_ge r (Z.max m x)). lia.
Qed.

Lemma fold_max_in (l : list Z) (m : Z) :
  fold_left Z.max l m = m \/ In (fold_left Z.max l m) l.
Proof.
  revert m. induction l as [|x r IH]; intros m; simpl; [now left|].
  destruct (IH (Z.max m x)) as [E | Hin]; [|now right; right].
  rewrite E. destruct (Z.max_spec m x) as [[_ ->] | [_ ->]]; [right; now left | now left].
Qed.

Lemma contiguous_max (l : list Z) :
  contiguous l -> maxPriorityOrZero (sql_max l) = Z.of_nat (length l).
Proof.
  intros [Hnd Hin]. destruct l as [|x r]; [reflexivity|].
  unfold sql_max. simpl fold_left. rewrite sql_max_fold. unfold maxPriorityOrZero.
  set (m := fold_left Z.max r x).
  assert (In m (x :: r)) as Hm.
  { destruct (fold_max_in r x) as [E | H]; [left; symmetry; exact E | now right]. }
  assert (In (Z.of_nat (length (x :: r))) (x :: r)) as Hn.
  { apply Hin. simpl length. lia. }
  assert (Z.of_nat (length (x :: r)) <= m) as Hle.
  { destruct Hn as [<- | Hn]; [apply fold_max_ge | now apply fold_max_upper]. }
  apply Hin in Hm. destruct (Z.eqb_spec m 0); lia.
Qed.

(** ** The update code, row by row *)

(** Decides every comparison in the goal and closes the row equalities
    and the impossible cases that come out. *)
Ltac row_simpl :=
  unfold inLane, set_priority, set_status_priority in *;
  cbn [id name description status priority andb orb negb] in *.

Ltac split_tests :=
  repeat (row_simpl;
          match goal with
          | |- context [String.eqb ?a ?b] => destruct (String.eqb_spec a b)
          | |- context [Z.ltb ?a ?b] => destruct (Z.ltb_spec a b)
          | |- context [Z.leb ?a ?b] => destruct (Z.leb_spec a b)
          | |- context [Z.eqb ?a ?b] => destruct (Z.eqb_spec a b)
          end);
  row_simpl;
  try reflexivity; try congruence; try lia; try (f_equal; lia).

Lemma idMatches_id (n : jsnum) (c c' : Client) :
  id c' = id c -> idMatches n c' = idMatches n c.
Proof. intros H. destruct n; [reflexivity|]. cbn [idMatches]. now rewrite H. Qed.

Lemma getById_Num (n : jsnum) (db : Db) (client : Client) :
  getById n db = Some client -> exists i, n = Num i /\ id client = i.
Proof.
  unfold getById. intros H. apply find_some in H as [_ H].
  destruct n as [|i]; [discriminate|]. exists i. split; [reflexivity|].
  now apply Z.eqb_eq.
Qed.

Lemma putClient_found (param : string) (b : Body) (db : Db) (client : Client) :
  getById (parseInt param) db = Some client ->
  putClient param b db =
    (mkResponse 200 (SendClients (updateCode (parseInt param) client b db)),
     updateCode (parseInt param) client b db).
Proof.
  intros H. unfold putClient, validateId.
  destruct (getById_Num _ _ _ H) as (i & E & _). rewrite E in *.
  cbn [isNaN]. rewrite H. unfold getById in H. rewrite H. reflexivity.
Qed.

Lemma putClient_rejected (param : string) (b : Body) (db : Db) :
  getById (parseInt param) db = None ->
  snd (putClient param b db) = db
  /\ statusCode (fst (putClient param b db)) = 400.
Proof.
  intros H. unfold putClient, validateId. rewrite H.
  destruct (isNaN (parseInt param)); split; reflexivity.
Qed.

Lemma movesLane_true (s : string) (client : Client) :
  s <> "" -> s <> status client -> movesLane (Some s) client = true.
Proof.
  intros H1 H2. unfold movesLane, truthy. split_tests.
Qed.

Lemma updateCode_laneChangeAt n client s p b db :
  body_status b = Some s -> s <> "" -> s <> status client ->
  body_priority b = Some p ->
  updateCode n client b db = map (spec_laneChangeAt n client s p) db.
Proof.
  intros Hs H1 H2 Hp. unfold updateCode. rewrite Hs, Hp, movesLane_true by assumption.
  unfold setPlacement, makeRoom, closeGap, sql_update.
  rewrite !map_map. apply map_ext. intros c. unfold spec_laneChangeAt.
  split_tests;
    rewrite ?(idMatches_id n c) by reflexivity;
    destruct (idMatches n c); split_tests.
Qed.

Lemma updateCode_laneChangeAppend n client s b db :
  body_status b = Some s -> s <> "" -> s <> status client ->
  body_priority b = None ->
  updateCode n client b db =
    map (spec_laneChangeAppend n client s
           (maxPriorityOrZero
              (maxPriority s (closeGap (status client) (priority client) db)) + 1))
        db.
Proof.
  intros Hs H1 H2 Hp. unfold updateCode. rewrite Hs, Hp, movesLane_true by assumption.
  cbv zeta. generalize (maxPriorityOrZero
     (maxPriority s (closeGap (status client) (priority client) db)) + 1).
  intros q. unfold setPlacement, closeGap, sql_update.
  rewrite !map_map. apply map_ext. intros c. unfold spec_laneChangeAppend.
  split_tests;
    rewrite ?(idMatches_id n c) by reflexivity;
    destruct (idMatches n c); split_tests.
Qed.

Lemma updateCode_rerankAt n client p b db :
  movesLane (body_status b) client = false ->
  body_priority b = Some p -> p <> priority client ->
  updateCode n client b db = map (spec_rerankAt n client p) db.
Proof.
  intros Hs Hp Hne. unfold updateCode. rewrite Hs, Hp.
  destruct (Z.eqb_spec p (priority client)) as [|_]; [contradiction|]. cbn [negb].
  unfold setPriorityById, shiftUpBetween, shiftDownBetween, sql_update.
  destruct (Z.ltb_spec (priority client) p) as [Hlt | Hge];
    [|destruct (Z.ltb_spec p (priority client)) as [Hlt | Hge']; [|lia]];
    rewrite !map_map; apply map_ext; intros c; unfold spec_rerankAt;
    split_tests;
    rewrite ?(idMatches_id n c) by reflexivity;
    destruct (idMatches n c); split_tests.
Qed.

Lemma updateCode_noop n client b db :
  movesLane (body_status b) client = false ->
  (body_priority b = None \/ body_priority b = Some (priority client)) ->
  updateCode n client b db = db.
Proof.
  intros Hs [Hp | Hp]; unfold updateCode; rewrite Hs, Hp; [reflexivity|].
  now rewrite Z.eqb_refl.
Qed.

(** ** Rows other than the one addressed *)

Lemma Permutation_filter_rows (f : Client -> bool) (l l' : list Client) :
  Permutation l l' -> Permutation (filter f l) (filter f l').
Proof.
  induction 1 as [|x l l' _ IH|x y l|l l' l'' _ IH1 _ IH2]; simpl.
  - constructor.
  - destruct (f x); [now constructor | assumption].
  - destruct (f x), (f y); try reflexivity. apply perm_swap.
  - now transitivity (filter f l').
Qed.

Lemma lanePriorities_perm (s : string) (l l' : Db) :
  Permutation l l' -> Permutation (lanePriorities s l) (lanePriorities s l').
Proof.
  intros H. unfold lanePriorities, listByLane.
  now apply Permutation_map, Permutation_filter_rows.
Qed.

Lemma uniqueIds_tail (c : Client) (db : Db) :
  uniqueIds (c :: db) -> uniqueIds db.
Proof. unfold uniqueIds. simpl. intros H. now inversion H. Qed.

Lemma others_all (n : jsnum) (c : Client) (db : Db) :
  uniqueIds (c :: db) -> idMatches n c = true -> others n db = db.
Proof.
  unfold uniqueIds, others. simpl. intros H Hc.
  inversion H as [|? ? Hnot _]; subst. clear H.
  destruct n as [|i]; [discriminate|]. cbn [idMatches] in *.
  apply Z.eqb_eq in Hc.
  induction db as [|d r IH]; simpl; [reflexivity|].
  destruct (Z.eqb_spec (id d) i) as [E | NE]; cbn [negb].
  - exfalso. apply Hnot. left. congruence.
  - f_equal. apply IH. intros Hin. apply Hnot. now right.
Qed.

(** With [id] a key, the table is the addressed row and the others. *)
Lemma split_client (n : jsnum) (db : Db) (client : Client) :
  uniqueIds db -> getById n db = Some client ->
  Permutation db (client :: others n db).
Proof.
  unfold getById. induction db as [|c r IH]; cbn [find]; intros Hu Hf; [discriminate|].
  destruct (idMatches n c) eqn:E.
  - injection Hf as <-. unfold others. cbn [filter]. rewrite E. cbn [negb].
    fold (others n r). now rewrite (others_all n c r).
  - unfold others. cbn [filter]. rewrite E. cbn [negb]. fold (others n r).
    etransitivity; [|apply perm_swap].
    constructor. apply IH; [eapply uniqueIds_tail; eassumption | assumption].
Qed.

Lemma others_no_match (n : jsnum) (db : Db) (c : Client) :
  In c (others n db) -> idMatches n c = false.
Proof.
  unfold others. rewrite filter_In. intros [_ H]. now apply negb_true_iff.
Qed.

(** A row function that keeps the lane and renumbers it by [h] acts on
    the lane's priorities as [map h]. *)
Lemma lanePriorities_map (s : string) (g : Client -> Client) (h : Z -> Z)
  (l : Db) :
  (forall c, In c l -> status (g c) = status c) ->
  (forall c, In c l -> status c = s -> priority (g c) = h (priority c)) ->
  lanePriorities s (map g l) = map h (lanePriorities s l).
Proof.
  unfold lanePriorities, listByLane.
  induction l as [|c r IH]; intros Hst Hpr; [reflexivity|].
  assert (map priority (filter (inLane s) (map g r)) =
          map h (map priority (filter (inLane s) r))) as IH'.
  { apply IH; intros; [apply Hst | apply Hpr]; auto; now right. }
  cbn [map filter].
  assert (inLane s (g c) = inLane s c) as ->
    by (unfold inLane; now rewrite (Hst c (or_introl eq_refl))).
  destruct (inLane s c) eqn:E; cbn [map]; [|exact IH'].
  apply String.eqb_eq in E.
  rewrite (Hpr c (or_introl eq_refl) E). now f_equal.
Qed.

(** A row function that is the identity on lane [s] and never moves a
    row into it leaves the lane's priorities alone. *)
Lemma lanePriorities_same (s : string) (g : Client -> Client) (l : Db) :
  (forall c, In c l -> status (g c) = status c) ->
  (forall c, In c l -> status c = s -> priority (g c) = priority c) ->
  lanePriorities s (map g l) = lanePriorities s l.
Proof.
  intros H1 H2. rewrite (lanePriorities_map s g (fun p => p)) by assumption.
  apply map_id.
Qed.

Lemma lanePriorities_cons (s : string) (c : Client) (l : Db) :
  lanePriorities s (c :: l) =
    if inLane s c then priority c :: lanePriorities s l
    else lanePriorities s l.
Proof.
  unfold lanePriorities, listByLane. simpl. now destruct (inLane s c).
Qed.

Lemma lanePriorities_length (s : string) (db : Db) :
  length (lanePriorities s db) = length (listByLane s db).
Proof. unfold lanePriorities. apply length_map. Qed.

(** The image of the table under a row function, lane by lane, when [id]
    is a key. *)
Lemma lane_after (s : string) (g : Client -> Client) (n : jsnum) (db : Db)
  (client : Client) :
  uniqueIds db -> getById n db = Some client ->
  Permutation (lanePriorities s (map g db))
    (lanePriorities s (g client :: map g (others n db))).
Proof.
  intros Hu Hf. apply lanePriorities_perm.
  change (g client :: map g (others n db)) with (map g (client :: others n db)).
  apply Permutation_map. now apply split_client.
Qed.

Lemma lane_before (s : string) (n : jsnum) (db : Db) (client : Client) :
  uniqueIds db -> getById n db = Some client ->
  Permutation (lanePriorities s db) (lanePriorities s (client :: others n db)).
Proof.
  intros Hu Hf. apply lanePriorities_perm. now apply split_client.
Qed.

(** ** The invariant through each case of the update *)

Section Preservation.

Variables (n : jsnum) (db : Db) (client : Client).
Hypothesis Hids : uniqueIds db.
Hypothesis Hinv : laneInvariant db.
Hypothesis Hclient : getById n db = Some client.

Lemma client_matches : idMatches n client = true.
Proof. unfold getById in Hclient. now apply find_some in Hclient. Qed.

Lemma old_lane_perm :
  Permutation (lanePriorities (status client) db)
              (priority client :: lanePriorities (status client) (others n db)).
Proof.
  pose proof (lane_before (status client) n db client Hids Hclient) as H.
  rewrite lanePriorities_cons in H. unfold inLane in H.
  now rewrite String.eqb_refl in H.
Qed.

Lemma old_lane_before :
  contiguous (priority client :: lanePriorities (status client) (others n db)).
Proof.
  eapply contiguous_perm; [apply old_lane_perm | apply Hinv].
Qed.

Lemma other_lane_before (t : string) :
  t <> status client ->
  Permutation (lanePriorities t db) (lanePriorities t (others n db)).
Proof.
  intros Ht.
  etransitivity; [apply (lane_before t n db client); assumption|].
  rewrite lanePriorities_cons. unfold inLane.
  destruct (String.eqb_spec (status client) t); [congruence | reflexivity].
Qed.

Lemma rest_not_old_priority (c : Client) :
  In c (others n db) -> status c = status client -> priority c <> priority client.
Proof.
  intros Hc Hs E. destruct old_lane_before as [Hnd _].
  inversion Hnd as [|? ? Hnot _]; subst. apply Hnot.
  rewrite <- E. unfold lanePriorities, listByLane. apply in_map.
  apply filter_In. split; [assumption|]. unfold inLane. now apply String.eqb_eq.
Qed.

Lemma invariant_laneChangeAt (s : string) (p : Z) :
  s <> status client ->
  1 <= p <= Z.of_nat (length (listByLane s db)) + 1 ->
  laneInvariant (map (spec_laneChangeAt n client s p) db).
Proof.
  intros Hs Hp t.
  eapply contiguous_perm;
    [symmetry; apply (lane_after t _ n db client); assumption|].
  rewrite lanePriorities_cons.
  unfold spec_laneChangeAt at 1 2. rewrite client_matches.
  destruct (String.eqb_spec t (status client)) as [-> | Hold];
    [|destruct (String.eqb_spec t s) as [-> | Hnew]].
  - (* the lane left behind *)
    replace (inLane (status client) (set_status_priority s p client)) with false
      by (symmetry; split_tests).
    rewrite (lanePriorities_map _ _ (down (priority client))).
    + apply contiguous_remove, old_lane_before.
    + intros c Hc. unfold spec_laneChangeAt.
      rewrite (others_no_match n db c Hc). split_tests.
    + intros c Hc E. unfold spec_laneChangeAt, down.
      rewrite (others_no_match n db c Hc). split_tests.
  - (* the destination lane *)
    replace (inLane s (set_status_priority s p client)) with true
      by (symmetry; split_tests).
    cbn [priority set_status_priority].
    rewrite (lanePriorities_map _ _ (up p)).
    + apply contiguous_insert.
      * eapply contiguous_perm; [apply other_lane_before; assumption | apply Hinv].
      * rewrite <- (Permutation_length (other_lane_before s Hs)),
          lanePriorities_length. exact Hp.
    + intros c Hc. unfold spec_laneChangeAt.
      rewrite (others_no_match n db c Hc). split_tests.
    + intros c Hc E. unfold spec_laneChangeAt, up.
      rewrite (others_no_match n db c Hc). split_tests.
  - (* any other lane *)
    replace (inLane t (set_status_priority s p client)) with false
      by (symmetry; split_tests).
    rewrite lanePriorities_same.
    + eapply contiguous_perm; [apply other_lane_before; assumption | apply Hinv].
    + intros c Hc. unfold spec_laneChangeAt.
      rewrite (others_no_match n db c Hc). split_tests.
    + intros c Hc E. unfold spec_laneChangeAt.
      rewrite (others_no_match n db c Hc). split_tests.
Qed.

Lemma closeGap_other_lane (s : string) :
  s <> status client ->
  lanePriorities s (closeGap (status client) (priority client) db) =
  lanePriorities s db.
Proof.
  intros Hs. unfold closeGap, sql_update. apply lanePriorities_same.
  - intros c _. split_tests.
  - intros c _ E. split_tests.
Qed.

Lemma append_priority (s : string) :
  s <> status client ->
  maxPriorityOrZero
    (maxPriority s (closeGap (status client) (priority client) db)) + 1 =
  Z.of_nat (length (listByLane s db)) + 1.
Proof.
  intros Hs. unfold maxPriority.
  fold (lanePriorities s (closeGap (status client) (priority client) db)).
  rewrite closeGap_other_lane by assumption.
  rewrite contiguous_max by apply Hinv.
  now rewrite lanePriorities_length.
Qed.

Lemma invariant_laneChangeAppend (s : string) :
  s <> status client ->
  laneInvariant
    (map (spec_laneChangeAppend n client s (Z.of_nat (length (listByLane s db)) + 1))
         db).
Proof.
  intros Hs.
  set (p := Z.of_nat (length (listByLane s db)) + 1).
  replace (map (spec_laneChangeAppend n client s p) db)
    with (map (spec_laneChangeAt n client s p) db).
  - apply invariant_laneChangeAt; [assumption | subst p; lia].
  - apply map_ext_in. intros c Hc. unfold spec_laneChangeAt, spec_laneChangeAppend.
    destruct (idMatches n c); [reflexivity|].
    destruct (inLane (status client) c && (priority client <? priority c));
      [reflexivity|].
    destruct (inLane s c) eqn:E; [|reflexivity].
    assert (In (priority c) (lanePriorities s db)) as Hin.
    { unfold lanePriorities, listByLane. apply in_map, filter_In. now split. }
    apply (Hinv s) in Hin. rewrite lanePriorities_length in Hin.
    subst p. split_tests.
Qed.

Lemma invariant_rerankAt (p : Z) :
  1 <= p <= Z.of_nat (length (listByLane (status client) db)) ->
  laneInvariant (map (spec_rerankAt n client p) db).
Proof.
  intros Hp t.
  eapply contiguous_perm;
    [symmetry; apply (lane_after t _ n db client); assumption|].
  rewrite lanePriorities_cons.
  unfold spec_rerankAt at 1 2. rewrite client_matches.
  destruct (String.eqb_spec t (status client)) as [-> | Hold].
  - replace (inLane (status client) (set_priority p client)) with true
      by (symmetry; split_tests).
    cbn [priority set_priority].
    pose proof old_lane_before as Hold.
    rewrite (lanePriorities_map _ _
               (fun q => up p (down (priority client) q))).
    + rewrite <- map_map. apply contiguous_insert.
      * now apply contiguous_remove.
      * rewrite length_map.
        pose proof (Permutation_length old_lane_perm) as HL.
        rewrite lanePriorities_length in HL. cbn [length] in HL. lia.
    + intros c Hc. unfold spec_rerankAt.
      rewrite (others_no_match n db c Hc). split_tests.
    + intros c Hc E. pose proof (rest_not_old_priority c Hc E).
      unfold spec_rerankAt, up, down.
      rewrite (others_no_match n db c Hc). split_tests.
  - replace (inLane t (set_priority p client)) with false
      by (symmetry; split_tests).
    rewrite lanePriorities_same.
    + eapply contiguous_perm; [apply other_lane_before; assumption | apply Hinv].
    + intros c Hc. unfold spec_rerankAt.
      rewrite (others_no_match n db c Hc). split_tests.
    + intros c Hc E. unfold spec_rerankAt.
      rewrite (others_no_match n db c Hc). split_tests.
Qed.

End Preservation.

(** ** Reading the addressed row back *)

Lemma find_map_keep_id (n : jsnum) (g : Client -> Client) (db : Db) :
  (forall c, id (g c) = id c) ->
  getById n (map g db) = option_map g (getById n db).
Proof.
  intros Hg. unfold getById. induction db as [|c r IH]; [reflexivity|].
  cbn [map find]. rewrite (idMatches_id n c (g c)) by apply Hg.
  destruct (idMatches n c); [reflexivity | exact IH].
Qed.

Lemma spec_laneChangeAt_id n client s p c :
  id (spec_laneChangeAt n client s p c) = id c.
Proof.
  unfold spec_laneChangeAt. destruct (idMatches n c); split_tests.
Qed.

Lemma spec_laneChangeAppend_id n client s p c :
  id (spec_laneChangeAppend n client s p c) = id c.
Proof.
  unfold spec_laneChangeAppend. destruct (idMatches n c); split_tests.
Qed.

Lemma spec_rerankAt_id n client p c :
  id (spec_rerankAt n client p c) = id c.
Proof.
  unfold spec_rerankAt. destruct (idMatches n c); split_tests.
Qed.

Lemma maxPriorityOrZero_spec (s : string) (db : Db) :
  maxPriorityOrZero (maxPriority s db) = spec_maxPriorityInLane s db.
Proof.
  unfold maxPriority, spec_maxPriorityInLane.
  fold (lanePriorities s db). destruct (lanePriorities s db) as [|x r];
    [reflexivity|].
  unfold sql_max. simpl fold_left. rewrite sql_max_fold.
  unfold maxPriorityOrZero. destruct (Z.eqb_spec (fold_left Z.max r x) 0); lia.
Qed.

Lemma laneInvariantb_sound (db : Db) :
  laneInvariantb db = true -> laneInvariant db.
Proof.
  unfold laneInvariantb. rewrite forallb_forall. intros H s.
  destruct (listByLane s db) as [|c r] eqn:E.
  - unfold lanePriorities. rewrite E. apply contiguous_nil.
  - assert (In c (listByLane s db)) as Hc by (rewrite E; now left).
    apply filter_In in Hc as [Hc Hs]. apply String.eqb_eq in Hs. subst s.
    now apply contiguousb_sound, H.
Qed.

Lemma uniqueIdsb_sound (db : Db) : uniqueIdsb db = true -> uniqueIds db.
Proof. apply nodupb_NoDup. Qed.

(** ** Claims *)

(** C1, as stated, fails: a PUT that succeeds on a contiguous table can
    leave a lane that is not [{1..N}].  Moving client 1 to "in-progress"
    at priority 50 leaves that lane with priorities 50, 1, 2. *)
Lemma contiguity_not_kept_for_any_priority :
  ~ (forall param b db client,
       uniqueIds db -> laneInvariant db ->
       getById (parseInt param) db = Some client ->
       laneInvariant (snd (putClient param b db))).
Proof.
  intros H.
  specialize (H "1" (mkBody (Some "in-progress") (Some 50)) board P1).
  assert (laneInvariant
            (snd (putClient "1" (mkBody (Some "in-progress") (Some 50)) board)))
    as Hbad.
  { apply H; [apply uniqueIdsb_sound | apply laneInvariantb_sound | ];
      reflexivity. }
  destruct (Hbad "in-progress") as [_ Hin].
  assert (1 <= 50 <= 3) as Habs by (apply (Hin 50); now left).
  lia.
Qed.

(** C1 (amended): on a table with unique ids whose lanes are all
    [{1..N}], a PUT on an existing client whose priority, when given, fits
    the lane it goes to (1..N+1 when the lane changes, 1..N when it does
    not) answers 200 and leaves every lane's priorities equal to [{1..N}],
    without duplicates or gaps. *)
Theorem put_keeps_lanes_contiguous (param : string) (b : Body) (db : Db)
  (client : Client) :
  uniqueIds db -> laneInvariant db ->
  getById (parseInt param) db = Some client ->
  priorityFits client b db ->
  statusCode (fst (putClient param b db)) = 200
  /\ laneInvariant (snd (putClient param b db)).
Proof.
  intros Hu Hinv Hc Hfit.
  rewrite (putClient_found param b db client Hc). cbn [fst snd statusCode].
  split; [reflexivity|].
  unfold priorityFits in Hfit.
  destruct (movesLane (body_status b) client) eqn:Hm.
  - destruct (body_status b) as [s|] eqn:Hs; [|discriminate].
    unfold movesLane, truthy in Hm.
    apply andb_true_iff in Hm as [Ht Hd].
    apply negb_true_iff, String.eqb_neq in Ht, Hd.
    destruct (body_priority b) as [p|] eqn:Hp.
    + rewrite (updateCode_laneChangeAt _ client s p) by assumption.
      now apply invariant_laneChangeAt.
    + rewrite (updateCode_laneChangeAppend _ client s) by assumption.
      rewrite (append_priority db client Hinv) by assumption.
      now apply invariant_laneChangeAppend.
  - destruct (body_priority b) as [p|] eqn:Hp.
    + destruct (Z.eq_dec p (priority client)) as [E | NE].
      * rewrite updateCode_noop; [assumption | assumption | right; congruence].
      * rewrite (updateCode_rerankAt _ client p) by assumption.
        now apply invariant_rerankAt.
    + rewrite updateCode_noop; [assumption | assumption | now left].
Qed.

Lemma put_keeps_lanes_contiguous_witness :
  statusCode (fst (putClient "1" (mkBody (Some "in-progress") (Some 2)) board)) = 200
  /\ laneInvariant (snd (putClient "1" (mkBody (Some "in-progress") (Some 2)) board)).
Proof.
  apply (put_keeps_lanes_contiguous "1" (mkBody (Some "in-progress") (Some 2))
           board P1).
  - apply uniqueIdsb_sound. reflexivity.
  - apply laneInvariantb_sound. reflexivity.
  - reflexivity.
  - unfold priorityFits. simpl. lia.
Defined.

(** C2: a lane change with an explicit priority (status given, not empty
    and different from the client's lane; priority [p] given) answers 200
    with the table in which the moved client sits in the new lane at
    exactly [p], every other row of the destination lane with
    priority [>= p] has gained one, and every row of the old lane with
    priority above the client's old one has lost one; all other rows are
    as before. *)
Theorem lane_change_with_priority (param : string) (b : Body) (db : Db)
  (client : Client) (s : string) (p : Z) :
  getById (parseInt param) db = Some client ->
  body_status b = Some s -> s <> "" -> s <> status client ->
  body_priority b = Some p ->
  let db' := map (spec_laneChangeAt (parseInt param) client s p) db in
  putClient param b db = (mkResponse 200 (SendClients db'), db')
  /\ getById (parseInt param) db' = Some (set_status_priority s p client).
Proof.
  intros Hc Hs Hne Hd Hp db'. split.
  - rewrite (putClient_found param b db client Hc).
    now rewrite (updateCode_laneChangeAt _ client s p).
  - subst db'. rewrite find_map_keep_id by apply spec_laneChangeAt_id.
    rewrite Hc. cbn [option_map]. unfold spec_laneChangeAt.
    now rewrite (client_matches _ db client Hc).
Qed.

Lemma lane_change_with_priority_witness :
  let db' := [mkClient 1 "P1" "" "in-progress" 2; mkClient 2 "P2" "" "backlog" 1;
              mkClient 3 "P3" "" "backlog" 2; Q1;
              mkClient 5 "Q2" "" "in-progress" 3] in
  putClient "1" (mkBody (Some "in-progress") (Some 2)) board
    = (mkResponse 200 (SendClients db'), db')
  /\ getById (Num 1) db' = Some (mkClient 1 "P1" "" "in-progress" 2).
Proof.
  apply (lane_change_with_priority "1" (mkBody (Some "in-progress") (Some 2))
           board P1 "in-progress" 2);
    try reflexivity; discriminate.
Defined.

(** C3: a same-lane re-rank (status absent or equal to the client's lane,
    priority [p] given and different from the current one) answers 200
    with the table in which the moved client has priority [p]; when [p] is
    above the old priority every row of the lane with
    [old < priority <= p] has lost one, when it is below every row with
    [p <= priority < old] has gained one; all other rows are as before.
    On backlog P1=1, P2=2, P3=3, setting P1 to 3 gives P2=1, P3=2, P1=3. *)
Theorem same_lane_rerank (param : string) (b : Body) (db : Db)
  (client : Client) (p : Z) :
  getById (parseInt param) db = Some client ->
  body_status b = None \/ body_status b = Some (status client) ->
  body_priority b = Some p -> p <> priority client ->
  let db' := map (spec_rerankAt (parseInt param) client p) db in
  (putClient param b db = (mkResponse 200 (SendClients db'), db')
   /\ getById (parseInt param) db' = Some (set_priority p client))
  /\ snd (putClient "1" (mkBody None (Some 3)) backlog3)
     = [set_priority 3 P1; set_priority 1 P2; set_priority 2 P3].
Proof.
  intros Hc Hs Hp Hne db'. split; [split|reflexivity].
  - rewrite (putClient_found param b db client Hc).
    rewrite (updateCode_rerankAt _ client p); [reflexivity | | assumption..].
    destruct Hs as [-> | ->]; [reflexivity|].
    unfold movesLane. now rewrite String.eqb_refl, andb_false_r.
  - subst db'. rewrite find_map_keep_id by apply spec_rerankAt_id.
    rewrite Hc. cbn [option_map]. unfold spec_rerankAt.
    now rewrite (client_matches _ db client Hc).
Qed.

Lemma same_lane_rerank_witness :
  let db' := [set_priority 1 P3; set_priority 2 P1; set_priority 3 P2] in
  (putClient "3" (mkBody (Some "backlog") (Some 1)) [P3; P1; P2]
     = (mkResponse 200 (SendClients db'), db')
   /\ getById (Num 3) db' = Some (set_priority 1 P3))
  /\ snd (putClient "1" (mkBody None (Some 3)) backlog3)
     = [set_priority 3 P1; set_priority 1 P2; set_priority 2 P3].
Proof.
  apply (same_lane_rerank "3" (mkBody (Some "backlog") (Some 1)) [P3; P1; P2]
           P3 1).
  - reflexivity.
  - right. reflexivity.
  - reflexivity.
  - simpl. lia.
Defined.

(** C4: a lane change without a priority (status given, not empty and
    different from the client's lane; priority absent) answers 200 with
    the table in which the moved client sits in the new lane at
    [maxPriorityInLane(newStatus) + 1] (0 + 1 on an empty lane) and every
    row of the old lane with priority above the client's old one has lost
    one; all other rows are as before.  On backlog P1=1, P2=2, P3=3, moving
    P1 to in-progress leaves backlog as P2=1, P3=2. *)
Theorem lane_change_append (param : string) (b : Body) (db : Db)
  (client : Client) (s : string) :
  getById (parseInt param) db = Some client ->
  body_status b = Some s -> s <> "" -> s <> status client ->
  body_priority b = None ->
  let p := spec_maxPriorityInLane s db + 1 in
  let db' := map (spec_laneChangeAppend (parseInt param) client s p) db in
  (putClient param b db = (mkResponse 200 (SendClients db'), db')
   /\ getById (parseInt param) db' = Some (set_status_priority s p client))
  /\ listByLane "backlog"
       (snd (putClient "1" (mkBody (Some "in-progress") None) backlog3))
     = [set_priority 1 P2; set_priority 2 P3].
Proof.
  intros Hc Hs Hne Hd Hp p db'. split; [split|reflexivity].
  - rewrite (putClient_found param b db client Hc).
    rewrite (updateCode_laneChangeAppend _ client s) by assumption.
    rewrite maxPriorityOrZero_spec. unfold spec_maxPriorityInLane.
    rewrite closeGap_other_lane by assumption. reflexivity.
  - subst db'. rewrite find_map_keep_id by apply spec_laneChangeAppend_id.
    rewrite Hc. cbn [option_map]. unfold spec_laneChangeAppend.
    now rewrite (client_matches _ db client Hc).
Qed.

Lemma lane_change_append_witness :
  let db' := [mkClient 1 "P1" "" "in-progress" 3; set_priority 1 P2;
              set_priority 2 P3; Q1; Q2] in
  (putClient "1" (mkBody (Some "in-progress") None) board
     = (mkResponse 200 (SendClients db'), db')
   /\ getById (Num 1) db' = Some (mkClient 1 "P1" "" "in-progress" 3))
  /\ listByLane "backlog"
       (snd (putClient "1" (mkBody (Some "in-progress") None) backlog3))
     = [set_priority 1 P2; set_priority 2 P3].
Proof.
  apply (lane_change_append "1" (mkBody (Some "in-progress") None) board P1
           "in-progress");
    try reflexivity; discriminate.
Defined.

(** ** Moving a client away and back *)

Lemma unique_row (n : jsnum) (db : Db) (client c : Client) :
  uniqueIds db -> getById n db = Some client ->
  In c db -> idMatches n c = true -> c = client.
Proof.
  intros Hu Hf Hc Hm.
  apply (Permutation_in _ (split_client n db client Hu Hf)) in Hc.
  destruct Hc as [<- | Hc]; [reflexivity|].
  apply others_no_match in Hc. congruence.
Qed.

Lemma in_others (n : jsnum) (db : Db) (c : Client) :
  In c db -> idMatches n c = false -> In c (others n db).
Proof.
  intros Hc Hm. unfold others. apply filter_In. split; [assumption|].
  now rewrite Hm.
Qed.

Lemma spec_max_upper (s : string) (db : Db) (c : Client) :
  In c db -> status c = s -> priority c <= spec_maxPriorityInLane s db.
Proof.
  intros Hc Hs.
  assert (In (priority c) (lanePriorities s db)) as Hin.
  { unfold lanePriorities, listByLane. apply in_map, filter_In.
    split; [assumption|]. unfold inLane. now apply String.eqb_eq. }
  unfold spec_maxPriorityInLane. destruct (lanePriorities s db) as [|x r];
    [contradiction|].
  destruct Hin as [<- | Hin]; [apply fold_max_ge | now apply fold_max_upper].
Qed.

Lemma put_laneChangeAt (param : string) (db : Db) (client : Client)
  (s : string) (p : Z) :
  getById (parseInt param) db = Some client -> s <> "" -> s <> status client ->
  snd (putClient param (mkBody (Some s) (Some p)) db)
  = map (spec_laneChangeAt (parseInt param) client s p) db.
Proof.
  intros Hc Hne Hd. rewrite (putClient_found _ _ _ client Hc). cbn [snd].
  now apply updateCode_laneChangeAt.
Qed.

Lemma put_laneChangeAppend (param : string) (db : Db) (client : Client)
  (s : string) :
  getById (parseInt param) db = Some client -> s <> "" -> s <> status client ->
  snd (putClient param (mkBody (Some s) None) db)
  = map (spec_laneChangeAppend (parseInt param) client s
           (spec_maxPriorityInLane s db + 1)) db.
Proof.
  intros Hc Hne Hd. rewrite (putClient_found _ _ _ client Hc). cbn [snd].
  rewrite (updateCode_laneChangeAppend _ client s) by (assumption || reflexivity).
  rewrite maxPriorityOrZero_spec. unfold spec_maxPriorityInLane.
  now rewrite closeGap_other_lane.
Qed.

Lemma replaced_back (client : Client) (s : string) (q p : Z) :
  priority client = p ->
  set_status_priority (status client) p (set_status_priority s q client)
  = client.
Proof. intros <-. destruct client; reflexivity. Qed.

(** C5: on a table with unique ids and contiguous lanes, a client at
    priority 2 of lane A that is moved to another lane B (at a given
    priority or appended) and then moved back to lane A at priority 2
    leaves every client of lane A at its original priority; the whole
    table is as it was. *)
Theorem round_trip_restores_lane (param : string) (db : Db) (client : Client)
  (laneB : string) (prioB : option Z) :
  uniqueIds db -> laneInvariant db ->
  getById (parseInt param) db = Some client ->
  priority client = 2 ->
  status client <> "" -> laneB <> "" -> laneB <> status client ->
  let db1 := snd (putClient param (mkBody (Some laneB) prioB) db) in
  let db2 := snd (putClient param (mkBody (Some (status client)) (Some 2)) db1) in
  listByLane (status client) db2 = listByLane (status client) db
  /\ db2 = db.
Proof.
  intros Hu Hinv Hc Hp HA HB HAB db1 db2.
  set (n := parseInt param) in *.
  assert (forall c, In c db -> idMatches n c = false ->
                    status c = status client -> priority c <> 2) as Hfree.
  { intros c Hin Hm Hs. rewrite <- Hp.
    apply (rest_not_old_priority n db client Hu Hinv Hc c); [|assumption].
    now apply in_others. }
  assert (db2 = db) as Hback; [|split; [now rewrite Hback | exact Hback]].
  subst db2 db1. destruct prioB as [q|].
  - rewrite (put_laneChangeAt param db client laneB q) by assumption.
    fold n.
    assert (getById n (map (spec_laneChangeAt n client laneB q) db)
            = Some (set_status_priority laneB q client)) as Hc1.
    { rewrite find_map_keep_id by apply spec_laneChangeAt_id.
      rewrite Hc. cbn [option_map]. unfold spec_laneChangeAt.
      now rewrite (client_matches n db client Hc). }
    rewrite (put_laneChangeAt param _ _ (status client) 2 Hc1)
      by (assumption || (cbn [status set_status_priority]; congruence)).
    fold n. rewrite map_map. rewrite <- (map_id db) at 2.
    apply map_ext_in. intros c Hin.
    destruct (idMatches n c) eqn:Hm.
    + rewrite (unique_row n db client c Hu Hc Hin Hm).
      unfold spec_laneChangeAt at 2. rewrite (client_matches n db client Hc).
      unfold spec_laneChangeAt.
      rewrite (idMatches_id n client) by reflexivity.
      rewrite (client_matches n db client Hc).
      now apply replaced_back.
    + pose proof (Hfree c Hin Hm) as Hc2.
      unfold spec_laneChangeAt. rewrite Hm.
      split_tests;
        rewrite ?(idMatches_id n c) by reflexivity; rewrite ?Hm;
        split_tests; destruct c; cbn in *; subst; try congruence;
        try (exfalso; lia); try (exfalso; apply Hc2; [congruence | lia]);
        f_equal; lia.
  - rewrite (put_laneChangeAppend param db client laneB) by assumption.
    fold n. set (pm := spec_maxPriorityInLane laneB db + 1).
    assert (getById n (map (spec_laneChangeAppend n client laneB pm) db)
            = Some (set_status_priority laneB pm client)) as Hc1.
    { rewrite find_map_keep_id by apply spec_laneChangeAppend_id.
      rewrite Hc. cbn [option_map]. unfold spec_laneChangeAppend.
      now rewrite (client_matches n db client Hc). }
    rewrite (put_laneChangeAt param _ _ (status client) 2 Hc1)
      by (assumption || (cbn [status set_status_priority]; congruence)).
    fold n. rewrite map_map. rewrite <- (map_id db) at 2.
    apply map_ext_in. intros c Hin.
    destruct (idMatches n c) eqn:Hm.
    + rewrite (unique_row n db client c Hu Hc Hin Hm).
      unfold spec_laneChangeAppend. rewrite (client_matches n db client Hc).
      unfold spec_laneChangeAt.
      rewrite (idMatches_id n client) by reflexivity.
      rewrite (client_matches n db client Hc).
      now apply replaced_back.
    + pose proof (Hfree c Hin Hm) as Hc2.
      pose proof (spec_max_upper laneB db c Hin) as Hmax. fold pm in Hmax.
      unfold spec_laneChangeAt, spec_laneChangeAppend. rewrite Hm.
      split_tests;
        rewrite ?(idMatches_id n c) by reflexivity; rewrite ?Hm;
        split_tests; destruct c; cbn in *; subst; try congruence;
        try (exfalso; lia); try (exfalso; apply Hc2; [congruence | lia]);
        try (specialize (Hmax eq_refl); exfalso; lia);
        f_equal; lia.
Qed.

Lemma round_trip_restores_lane_witness :
  let db1 := snd (putClient "2" (mkBody (Some "in-progress") (Some 1)) board) in
  let db2 := snd (putClient "2" (mkBody (Some "backlog") (Some 2)) db1) in
  listByLane "backlog" db2 = listByLane "backlog" board /\ db2 = board.
Proof.
  apply (round_trip_restores_lane "2" board P2 "in-progress" (Some 1)).
  - apply uniqueIdsb_sound. reflexivity.
  - apply laneInvariantb_sound. reflexivity.
  - reflexivity.
  - reflexivity.
  - simpl. discriminate.
  - discriminate.
  - simpl. discriminate.
Defined.

(** ** Requests that change nothing *)

Lemma movesLane_same_status (st : option string) (client client' : Client) :
  status client' = status client ->
  movesLane st client' = movesLane st client.
Proof. intros H. unfold movesLane. now rewrite H. Qed.

Lemma movesLane_arrived (s : string) (client : Client) :
  status client = s -> movesLane (Some s) client = false.
Proof.
  intros <-. unfold movesLane. now rewrite String.eqb_refl, andb_false_r.
Qed.

(** After any update the same body asks for what the row already has. *)
Lemma updateCode_settles (n : jsnum) (client : Client) (b : Body) (db : Db) :
  getById n db = Some client ->
  exists client',
    getById n (updateCode n client b db) = Some client'
    /\ movesLane (body_status b) client' = false
    /\ (body_priority b = None \/ body_priority b = Some (priority client')).
Proof.
  intros Hc. pose proof (client_matches n db client Hc) as Hm.
  destruct (movesLane (body_status b) client) eqn:Hmv.
  - destruct (body_status b) as [s|] eqn:Hs; [|discriminate].
    pose proof Hmv as Hmv'. unfold movesLane, truthy in Hmv'.
    apply andb_true_iff in Hmv' as [Ht Hd].
    apply negb_true_iff, String.eqb_neq in Ht, Hd.
    destruct (body_priority b) as [p|] eqn:Hp.
    + exists (set_status_priority s p client).
      rewrite (updateCode_laneChangeAt n client s p) by assumption.
      rewrite find_map_keep_id by apply spec_laneChangeAt_id.
      rewrite Hc. cbn [option_map]. unfold spec_laneChangeAt. rewrite Hm.
      repeat split; [now apply movesLane_arrived | now right].
    + rewrite (updateCode_laneChangeAppend n client s) by assumption.
      set (q := maxPriorityOrZero _ + 1).
      exists (set_status_priority s q client).
      rewrite find_map_keep_id by apply spec_laneChangeAppend_id.
      rewrite Hc. cbn [option_map]. unfold spec_laneChangeAppend. rewrite Hm.
      repeat split; [now apply movesLane_arrived | now left].
  - destruct (body_priority b) as [p|] eqn:Hp.
    + destruct (Z.eq_dec p (priority client)) as [-> | NE].
      * exists client. rewrite updateCode_noop by (assumption || (right; assumption)).
        repeat split; [assumption.. | now right].
      * exists (set_priority p client).
        rewrite (updateCode_rerankAt n client p) by assumption.
        rewrite find_map_keep_id by apply spec_rerankAt_id.
        rewrite Hc. cbn [option_map]. unfold spec_rerankAt. rewrite Hm.
        repeat split; [|now right].
        now rewrite (movesLane_same_status _ client).
    + exists client. rewrite updateCode_noop by (assumption || (left; assumption)).
      repeat split; [assumption.. | now left].
Qed.

(** C6: a PUT on an existing client whose status is absent or equal to
    the client's lane and whose priority is absent or equal to the
    client's priority changes nothing and answers 200 with the table as it
    was; and for any request, sending the same body a second time leaves
    the table exactly as the first time left it. *)
Theorem no_change_and_idempotence (param : string) (b : Body) (db : Db) :
  (forall client,
     getById (parseInt param) db = Some client ->
     body_status b = None \/ body_status b = Some (status client) ->
     body_priority b = None \/ body_priority b = Some (priority client) ->
     putClient param b db = (mkResponse 200 (SendClients db), db))
  /\ snd (putClient param b (snd (putClient param b db)))
     = snd (putClient param b db).
Proof.
  split.
  - intros client Hc Hs Hp.
    rewrite (putClient_found param b db client Hc).
    rewrite updateCode_noop; [reflexivity | | assumption].
    destruct Hs as [-> | ->]; [reflexivity | now apply movesLane_arrived].
  - destruct (getById (parseInt param) db) as [client|] eqn:Hc.
    + rewrite (putClient_found param b db client Hc). cbn [snd].
      destruct (updateCode_settles _ client b db Hc) as (client' & Hc' & Hm & Hp).
      rewrite (putClient_found param b _ client' Hc'). cbn [snd].
      now apply updateCode_noop.
    + destruct (putClient_rejected param b db Hc) as [-> _].
      now destruct (putClient_rejected param b db Hc) as [-> _].
Qed.

Lemma no_change_and_idempotence_witness :
  putClient "2" (mkBody (Some "backlog") (Some 2)) board
  = (mkResponse 200 (SendClients board), board).
Proof.
  apply (proj1 (no_change_and_idempotence "2" (mkBody (Some "backlog") (Some 2))
                  board) P2).
  - reflexivity.
  - right. reflexivity.
  - right. reflexivity.
Defined.

(** ** Validation of the request *)

(** C7: the PUT handler does not reject a priority of 0 or below.
    [validatePriority] accepts every number, and the handler never calls
    it: a PUT with priority 0 on client 1 of backlog P1=1, P2=2, P3=3
    answers 200 and stores P1 at priority 0. *)
Theorem priority_zero_is_stored :
  (forall z, validatePriority (Num z) = Valid)
  /\ putClient "1" (mkBody None (Some 0)) backlog3
     = (mkResponse 200 (SendClients [set_priority 0 P1; P2; P3]),
        [set_priority 0 P1; P2; P3])
  /\ snd (putClient "1" (mkBody (Some "in-progress") (Some (-4))) backlog3)
     = [mkClient 1 "P1" "" "in-progress" (-4); set_priority 1 P2;
        set_priority 2 P3].
Proof.
  split; [intros z; reflexivity | split; reflexivity].
Qed.

(** The GET filter rejects every non-empty status outside the three
    lanes. *)
Lemma getClients_invalid_status (s : string) (db : Db) :
  s <> "" -> s <> "backlog" -> s <> "in-progress" -> s <> "complete" ->
  getClients (Some s) db
  = mkResponse 400
      (SendMessage
         (mkMessage "Invalid status provided."
            "Status can only be one of the following: [backlog | in-progress | complete].")).
Proof.
  intros H0 H1 H2 H3. unfold getClients, truthy.
  apply String.eqb_neq in H0, H1, H2, H3. now rewrite H0, H1, H2, H3.
Qed.

(** C8: the GET filter answers 400 "Invalid status provided." to the
    status "unknown", but the PUT handler does not check the status: a PUT
    with status "unknown" on client 1 answers 200 and stores the client in
    the lane "unknown". *)
Theorem put_accepts_unknown_status :
  statusCode (getClients (Some "unknown") backlog3) = 400
  /\ putClient "1" (mkBody (Some "unknown") None) backlog3
     = (mkResponse 200
          (SendClients [mkClient 1 "P1" "" "unknown" 1; set_priority 1 P2;
                        set_priority 2 P3]),
        [mkClient 1 "P1" "" "unknown" 1; set_priority 1 P2; set_priority 2 P3]).
Proof.
  split; reflexivity.
Qed.

(** C9, as stated, fails: an id that is no integer resolves to no client,
    and the long message of the answer is then "Id can only be integer." *)
Lemma unresolved_id_has_two_messages :
  ~ (forall param b db,
       getById (parseInt param) db = None ->
       exists m,
         fst (putClient param b db) = mkResponse 400 (SendMessage m)
         /\ long_message m = "Cannot find client with that id.").
Proof.
  intros H.
  destruct (H "abc" (mkBody None None) backlog3 eq_refl) as (m & Hm & Hl).
  vm_compute in Hm. injection Hm as <-. discriminate Hl.
Qed.

(** C9 (amended): a PUT whose id resolves to no client is answered 400
    and leaves the table as it was; the long message is "Cannot find
    client with that id." when the id parses to an integer, and "Id can
    only be integer." when it does not. *)
Theorem put_unknown_id_rejected (param : string) (b : Body) (db : Db) :
  getById (parseInt param) db = None ->
  putClient param b db
  = (mkResponse 400
       (SendMessage
          (mkMessage "Invalid id provided."
             (if isNaN (parseInt param) then "Id can only be integer."
              else "Cannot find client with that id."))),
     db).
Proof.
  intros H. unfold putClient, validateId. rewrite H.
  now destruct (isNaN (parseInt param)).
Qed.

Lemma put_unknown_id_rejected_witness :
  putClient "999" (mkBody (Some "complete") (Some 1)) board
  = (mkResponse 400
       (SendMessage
          (mkMessage "Invalid id provided." "Cannot find client with that id.")),
     board).
Proof.
  apply (put_unknown_id_rejected "999" (mkBody (Some "complete") (Some 1)) board).
  reflexivity.
Defined.

(** ** What an update leaves alone *)

Lemma Forall2_map_rows (R : Client -> Client -> Prop) (g : Client -> Client)
  (db : Db) :
  (forall c, In c db -> R c (g c)) -> Forall2 R db (map g db).
Proof.
  induction db as [|c r IH]; intros H; cbn [map]; constructor.
  - apply H. now left.
  - apply IH. intros d Hd. apply H. now right.
Qed.

(** Every case of the update code is a row-by-row rewrite that keeps the
    descriptive columns and touches only the two lanes involved. *)
Lemma updateCode_rows (n : jsnum) (client : Client) (b : Body) (db : Db) :
  getById n db = Some client ->
  exists g,
    updateCode n client b db = map g db
    /\ (forall c, id (g c) = id c /\ name (g c) = name c
                  /\ description (g c) = description c)
    /\ (forall c, idMatches n c = false ->
                  status c <> status client -> status c <> status (g client) ->
                  g c = c).
Proof.
  intros Hc. pose proof (client_matches n db client Hc) as Hm.
  destruct (movesLane (body_status b) client) eqn:Hmv.
  - destruct (body_status b) as [s|] eqn:Hs; [|discriminate].
    pose proof Hmv as Hmv'. unfold movesLane, truthy in Hmv'.
    apply andb_true_iff in Hmv' as [Ht Hd].
    apply negb_true_iff, String.eqb_neq in Ht, Hd.
    destruct (body_priority b) as [p|] eqn:Hp.
    + exists (spec_laneChangeAt n client s p).
      split; [now apply updateCode_laneChangeAt|]. split.
      * intros c. unfold spec_laneChangeAt.
        destruct (idMatches n c); split_tests; repeat split.
      * intros c Hn H1 H2. unfold spec_laneChangeAt in *.
        rewrite Hm in H2. rewrite Hn. split_tests.
    + rewrite (updateCode_laneChangeAppend n client s) by assumption.
      set (q := maxPriorityOrZero _ + 1).
      exists (spec_laneChangeAppend n client s q).
      split; [reflexivity|]. split.
      * intros c. unfold spec_laneChangeAppend.
        destruct (idMatches n c); split_tests; repeat split.
      * intros c Hn H1 H2. unfold spec_laneChangeAppend in *.
        rewrite Hm in H2. rewrite Hn. split_tests.
  - assert (exists g, updateCode n client b db = map g db
                      /\ (g = (fun c => c) \/ exists p, g = spec_rerankAt n client p))
      as (g & Hg & Hcase).
    { destruct (body_priority b) as [p|] eqn:Hp.
      - destruct (Z.eq_dec p (priority client)) as [-> | NE].
        + exists (fun c => c). rewrite map_id. split; [|now left].
          apply updateCode_noop; [assumption | now right].
        + exists (spec_rerankAt n client p). split; [|right; now exists p].
          now apply updateCode_rerankAt.
      - exists (fun c => c). rewrite map_id. split; [|now left].
        apply updateCode_noop; [assumption | now left]. }
    exists g. split; [assumption|].
    destruct Hcase as [-> | (p & ->)]; [repeat split|]. split.
    + intros c. unfold spec_rerankAt.
      destruct (idMatches n c); split_tests; repeat split.
    + intros c Hn H1 H2. unfold spec_rerankAt in *. rewrite Hn. split_tests.
Qed.

(** C10: on a table with unique ids, a PUT keeps the rows in place with
    their id, name and description, and a row whose lane is neither the
    addressed client's lane before the update nor its lane after it is
    left exactly as it was (status and priority included); a rejected PUT
    leaves the whole table as it was. *)
Theorem put_frame (param : string) (b : Body) (db : Db) :
  uniqueIds db ->
  let db' := snd (putClient param b db) in
  Forall2
    (fun c c' =>
       id c' = id c /\ name c' = name c /\ description c' = description c
       /\ (forall client client',
             getById (parseInt param) db = Some client ->
             getById (parseInt param) db' = Some client' ->
             status c <> status client -> status c <> status client' ->
             c' = c))
    db db'
  /\ (getById (parseInt param) db = None -> db' = db).
Proof.
  intros Hu db'. subst db'.
  destruct (getById (parseInt param) db) as [client|] eqn:Hc.
  - split; [|discriminate].
    rewrite (putClient_found param b db client Hc). cbn [snd].
    destruct (updateCode_rows _ client b db Hc) as (g & -> & Hkeep & Hfar).
    apply Forall2_map_rows. intros c Hin.
    destruct (Hkeep c) as (H1 & H2 & H3). repeat split; try assumption.
    intros cl cl' Hcl Hcl' Hs Hs'. injection Hcl as <-.
    rewrite find_map_keep_id in Hcl' by apply Hkeep.
    rewrite Hc in Hcl'. injection Hcl' as <-.
    destruct (idMatches (parseInt param) c) eqn:Hm.
    + rewrite (unique_row _ db client c Hu Hc Hin Hm) in Hs. congruence.
    + now apply Hfar.
  - destruct (putClient_rejected param b db Hc) as [-> _].
    split; [|reflexivity].
    rewrite <- (map_id db) at 2. apply Forall2_map_rows.
    intros c _. repeat split.
Qed.

Lemma put_frame_witness :
  let db' := snd (putClient "1" (mkBody (Some "complete") None) board) in
  Forall2
    (fun c c' =>
       id c' = id c /\ name c' = name c /\ description c' = description c
       /\ (forall client client',
             getById (Num 1) board = Some client ->
             getById (Num 1) db' = Some client' ->
             status c <> status client -> status c <> status client' ->
             c' = c))
    board db'
  /\ (getById (Num 1) board = None -> db' = board).
Proof.
  apply (put_frame "1" (mkBody (Some "complete") None) board).
  apply uniqueIdsb_sound. reflexivity.
Defined.

(** ** The four shapes of the update *)

(** Whatever the body, the update code is one of four row-by-row
    rewrites of the table. *)
Lemma updateCode_form (n : jsnum) (client : Client) (b : Body) (db : Db) :
  (exists s p, s <> "" /\ s <> status client
     /\ body_status b = Some s /\ body_priority b = Some p
     /\ updateCode n client b db = map (spec_laneChangeAt n client s p) db)
  \/ (exists s, s <> "" /\ s <> status client
     /\ body_status b = Some s /\ body_priority b = None
     /\ updateCode n client b db
        = map (spec_laneChangeAppend n client s
                 (spec_maxPriorityInLane s db + 1)) db)
  \/ (exists p, movesLane (body_status b) client = false
     /\ body_priority b = Some p /\ p <> priority client
     /\ updateCode n client b db = map (spec_rerankAt n client p) db)
  \/ (movesLane (body_status b) client = false
     /\ (body_priority b = None \/ body_priority b = Some (priority client))
     /\ updateCode n client b db = db).
Proof.
  destruct (movesLane (body_status b) client) eqn:Hmv.
  - destruct (body_status b) as [s|] eqn:Hs; [|discriminate].
    pose proof Hmv as Hmv'. unfold movesLane, truthy in Hmv'.
    apply andb_true_iff in Hmv' as [Ht Hd].
    apply negb_true_iff, String.eqb_neq in Ht, Hd.
    destruct (body_priority b) as [p|] eqn:Hp.
    + left. exists s, p. repeat split; try assumption.
      now apply updateCode_laneChangeAt.
    + right; left. exists s. repeat split; try assumption.
      rewrite (updateCode_laneChangeAppend n client s) by assumption.
      rewrite maxPriorityOrZero_spec. unfold spec_maxPriorityInLane.
      now rewrite closeGap_other_lane.
  - right; right. destruct (body_priority b) as [p|] eqn:Hp.
    + destruct (Z.eq_dec p (priority client)) as [-> | NE].
      * right. repeat split; [now right|].
        apply updateCode_noop; [assumption | now right].
      * left. exists p. repeat split; try assumption.
        now apply updateCode_rerankAt.
    + right. repeat split; [now left|].
      apply updateCode_noop; [assumption | now left].
Qed.

(** ** The lanes after each shape, as lists of priorities *)

Section LanesAfter.

Variables (n : jsnum) (db : Db) (client : Client).
Hypothesis Hids : uniqueIds db.
Hypothesis Hclient : getById n db = Some client.

Lemma lane_before_cases (t : string) :
  Permutation (lanePriorities t db)
    (if (t =? status client)%string
     then priority client :: lanePriorities t (others n db)
     else lanePriorities t (others n db)).
Proof.
  destruct (String.eqb_spec t (status client)) as [-> | Hne].
  - exact (old_lane_perm n db client Hids Hclient).
  - exact (other_lane_before n db client Hids Hclient t Hne).
Qed.

Lemma lanes_laneChangeAt (s : string) (p : Z) (t : string) :
  s <> status client ->
  Permutation
    (lanePriorities t (map (spec_laneChangeAt n client s p) db))
    (if (t =? status client)%string
     then map (down (priority client)) (lanePriorities t (others n db))
     else if (t =? s)%string
     then p :: map (up p) (lanePriorities t (others n db))
     else lanePriorities t (others n db)).
Proof.
  intros Hs.
  etransitivity; [apply (lane_after t _ n db client); assumption|].
  rewrite lanePriorities_cons.
  unfold spec_laneChangeAt at 1 2. rewrite (client_matches n db client Hclient).
  destruct (String.eqb_spec t (status client)) as [-> | Hold];
    [|destruct (String.eqb_spec t s) as [-> | Hnew]].
  - replace (inLane (status client) (set_status_priority s p client)) with false
      by (symmetry; split_tests).
    rewrite (lanePriorities_map _ _ (down (priority client))); [reflexivity| |].
    + intros c Hc. unfold spec_laneChangeAt.
      rewrite (others_no_match n db c Hc). split_tests.
    + intros c Hc E. unfold spec_laneChangeAt, down.
      rewrite (others_no_match n db c Hc). split_tests.
  - replace (inLane s (set_status_priority s p client)) with true
      by (symmetry; split_tests).
    cbn [priority set_status_priority].
    rewrite (lanePriorities_map _ _ (up p)); [reflexivity| |].
    + intros c Hc. unfold spec_laneChangeAt.
      rewrite (others_no_match n db c Hc). split_tests.
    + intros c Hc E. unfold spec_laneChangeAt, up.
      rewrite (others_no_match n db c Hc). split_tests.
  - replace (inLane t (set_status_priority s p client)) with false
      by (symmetry; split_tests).
    rewrite lanePriorities_same; [reflexivity| |].
    + intros c Hc. unfold spec_laneChangeAt.
      rewrite (others_no_match n db c Hc). split_tests.
    + intros c Hc E. unfold spec_laneChangeAt.
      rewrite (others_no_match n db c Hc). split_tests.
Qed.

Lemma lanes_laneChangeAppend (s : string) (p : Z) (t : string) :
  s <> status client ->
  Permutation
    (lanePriorities t (map (spec_laneChangeAppend n client s p) db))
    (if (t =? status client)%string
     then map (down (priority client)) (lanePriorities t (others n db))
     else if (t =? s)%string
     then p :: lanePriorities t (others n db)
     else lanePriorities t (others n db)).
Proof.
  intros Hs.
  etransitivity; [apply (lane_after t _ n db client); assumption|].
  rewrite lanePriorities_cons.
  unfold spec_laneChangeAppend at 1 2.
  rewrite (client_matches n db client Hclient).
  destruct (String.eqb_spec t (status client)) as [-> | Hold];
    [|destruct (String.eqb_spec t s) as [-> | Hnew]].
  - replace (inLane (status client) (set_status_priority s p client)) with false
      by (symmetry; split_tests).
    rewrite (lanePriorities_map _ _ (down (priority client))); [reflexivity| |].
    + intros c Hc. unfold spec_laneChangeAppend.
      rewrite (others_no_match n db c Hc). split_tests.
    + intros c Hc E. unfold spec_laneChangeAppend, down.
      rewrite (others_no_match n db c Hc). split_tests.
  - replace (inLane s (set_status_priority s p client)) with true
      by (symmetry; split_tests).
    cbn [priority set_status_priority].
    rewrite lanePriorities_same; [reflexivity| |].
    + intros c Hc. unfold spec_laneChangeAppend.
      rewrite (others_no_match n db c Hc). split_tests.
    + intros c Hc E. unfold spec_laneChangeAppend.
      rewrite (others_no_match n db c Hc). split_tests.
  - replace (inLane t (set_status_priority s p client)) with false
      by (symmetry; split_tests).
    rewrite lanePriorities_same; [reflexivity| |].
    + intros c Hc. unfold spec_laneChangeAppend.
      rewrite (others_no_match n db c Hc). split_tests.
    + intros c Hc E. unfold spec_laneChangeAppend.
      rewrite (others_no_match n db c Hc). split_tests.
Qed.

Lemma lanes_rerankAt (p : Z) (t : string) :
  Permutation
    (lanePriorities t (map (spec_rerankAt n client p) db))
    (if (t =? status client)%string
     then p :: map (rerankPriority (priority client) p)
                   (lanePriorities t (others n db))
     else lanePriorities t (others n db)).
Proof.
  etransitivity; [apply (lane_after t _ n db client); assumption|].
  rewrite lanePriorities_cons.
  unfold spec_rerankAt at 1 2. rewrite (client_matches n db client Hclient).
  destruct (String.eqb_spec t (status client)) as [-> | Hold].
  - replace (inLane (status client) (set_priority p client)) with true
      by (symmetry; split_tests).
    cbn [priority set_priority].
    rewrite (lanePriorities_map _ _ (rerankPriority (priority client) p));
      [reflexivity| |].
    + intros c Hc. unfold spec_rerankAt.
      rewrite (others_no_match n db c Hc). split_tests.
    + intros c Hc E. unfold spec_rerankAt, rerankPriority.
      rewrite (others_no_match n db c Hc). split_tests.
  - replace (inLane t (set_priority p client)) with false
      by (symmetry; split_tests).
    rewrite lanePriorities_same; [reflexivity| |].
    + intros c Hc. unfold spec_rerankAt.
      rewrite (others_no_match n db c Hc). split_tests.
    + intros c Hc E. unfold spec_rerankAt.
      rewrite (others_no_match n db c Hc). split_tests.
Qed.

End LanesAfter.

(** ** Distinct priorities, whatever the request *)

Lemma nodup_remove (q : Z) (l : list Z) :
  NoDup (q :: l) -> NoDup (map (down q) l).
Proof.
  intros Hnd. inversion Hnd as [|? ? Hq Hl]; subst.
  apply NoDup_map_NoDup_ForallPairs; [|assumption].
  intros a b Ha Hb.
  assert (a <> q) by (intros ->; contradiction).
  assert (b <> q) by (intros ->; contradiction).
  unfold down. destruct (Z.ltb_spec q a), (Z.ltb_spec q b); lia.
Qed.

Lemma nodup_insert (q : Z) (l : list Z) :
  NoDup l -> NoDup (q :: map (up q) l).
Proof.
  intros Hnd. constructor.
  - rewrite in_map_iff. intros (a & E & _). unfold up in E.
    destruct (Z.leb_spec q a); lia.
  - apply NoDup_map_NoDup_ForallPairs; [|assumption].
    intros a b _ _. unfold up.
    destruct (Z.leb_spec q a), (Z.leb_spec q b); lia.
Qed.

Lemma rerankPriority_up_down (old p q : Z) :
  q <> old -> rerankPriority old p q = up p (down old q).
Proof.
  intros Hq. unfold rerankPriority, up, down.
  destruct (Z.ltb_spec old p), (Z.ltb_spec p old), (Z.ltb_spec old q);
    cbn [andb];
    repeat match goal with
           | |- context [Z.leb ?a ?b] => destruct (Z.leb_spec a b)
           | |- context [Z.ltb ?a ?b] => destruct (Z.ltb_spec a b)
           end; cbn [andb]; lia.
Qed.

Lemma nodup_rerank (old p : Z) (l : list Z) :
  NoDup (old :: l) -> NoDup (p :: map (rerankPriority old p) l).
Proof.
  intros Hnd.
  replace (map (rerankPriority old p) l) with (map (up p) (map (down old) l)).
  - now apply nodup_insert, nodup_remove.
  - rewrite map_map. apply map_ext_in. intros q Hq. symmetry.
    apply rerankPriority_up_down. intros ->.
    inversion Hnd; contradiction.
Qed.

Lemma spec_max_upper_list (s : string) (db : Db) (q : Z) :
  In q (lanePriorities s db) -> q <= spec_maxPriorityInLane s db.
Proof.
  intros Hin. unfold spec_maxPriorityInLane.
  destruct (lanePriorities s db) as [|x r]; [contradiction|].
  destruct Hin as [<- | Hin]; [apply fold_max_ge | now apply fold_max_upper].
Qed.

Lemma updateCode_distinct (n : jsnum) (client : Client) (b : Body) (db : Db) :
  uniqueIds db -> laneDistinct db -> getById n db = Some client ->
  laneDistinct (updateCode n client b db).
Proof.
  intros Hu Hd Hc t.
  pose proof (lane_before_cases n db client Hu Hc) as Hbefore.
  assert (NoDup (priority client
                   :: lanePriorities (status client) (others n db))) as Hold.
  { specialize (Hbefore (status client)). rewrite String.eqb_refl in Hbefore.
    eapply Permutation_NoDup; [exact Hbefore | apply Hd]. }
  assert (forall u, u <> status client ->
                    Permutation (lanePriorities u db)
                                (lanePriorities u (others n db))) as Hother.
  { intros u Hu'. specialize (Hbefore u).
    destruct (String.eqb_spec u (status client)); [contradiction | assumption]. }
  assert (forall u, NoDup (lanePriorities u (others n db))) as Hrest.
  { intros u. destruct (String.eqb_spec u (status client)) as [-> | Hne].
    - now inversion Hold.
    - eapply Permutation_NoDup; [apply Hother; assumption | apply Hd]. }
  destruct (updateCode_form n client b db)
    as [(s & p & Hs0 & Hs & _ & _ & ->)
       | [(s & Hs0 & Hs & _ & _ & ->)
         | [(p & _ & _ & Hp & ->) | (_ & _ & ->)]]].
  - eapply Permutation_NoDup;
      [symmetry; apply (lanes_laneChangeAt n db client Hu Hc s p t Hs)|].
    destruct (String.eqb_spec t (status client)) as [-> | Hne];
      [now apply nodup_remove|].
    destruct (String.eqb_spec t s) as [-> | Hne']; [|apply Hrest].
    apply nodup_insert, Hrest.
  - eapply Permutation_NoDup;
      [symmetry; apply (lanes_laneChangeAppend n db client Hu Hc s _ t Hs)|].
    destruct (String.eqb_spec t (status client)) as [-> | Hne];
      [now apply nodup_remove|].
    destruct (String.eqb_spec t s) as [-> | Hne']; [|apply Hrest].
    constructor; [|apply Hrest].
    intros Hin. apply (Permutation_in _ (Permutation_sym (Hother s Hs))) in Hin.
    apply spec_max_upper_list in Hin. lia.
  - eapply Permutation_NoDup;
      [symmetry; apply (lanes_rerankAt n db client Hu Hc p t)|].
    destruct (String.eqb_spec t (status client)) as [-> | Hne]; [|apply Hrest].
    now apply nodup_rerank.
  - apply Hd.
Qed.

Lemma updateCode_ids (n : jsnum) (client : Client) (b : Body) (db : Db) :
  map id (updateCode n client b db) = map id db.
Proof.
  destruct (updateCode_form n client b db)
    as [(s & p & _ & _ & _ & _ & ->)
       | [(s & _ & _ & _ & _ & ->)
         | [(p & _ & _ & _ & ->) | (_ & _ & ->)]]];
    try reflexivity; rewrite map_map; apply map_ext; intros c.
  - apply spec_laneChangeAt_id.
  - apply spec_laneChangeAppend_id.
  - apply spec_rerankAt_id.
Qed.

Lemma putClient_cases (param : string) (b : Body) (db : Db) :
  (exists client, getById (parseInt param) db = Some client
     /\ putClient param b db
        = (mkResponse 200 (SendClients (updateCode (parseInt param) client b db)),
           updateCode (parseInt param) client b db))
  \/ (getById (parseInt param) db = None
      /\ snd (putClient param b db) = db
      /\ statusCode (fst (putClient param b db)) = 400).
Proof.
  destruct (getById (parseInt param) db) as [client|] eqn:Hc.
  - left. exists client. split; [reflexivity|]. now apply putClient_found.
  - right. split; [reflexivity|]. now apply putClient_rejected.
Qed.

Lemma putClient_keeps_keys (param : string) (b : Body) (db : Db) :
  map id (snd (putClient param b db)) = map id db.
Proof.
  destruct (putClient_cases param b db) as [(client & _ & ->) | (_ & -> & _)];
    [apply updateCode_ids | reflexivity].
Qed.

Lemma putClient_keeps_distinct (param : string) (b : Body) (db : Db) :
  uniqueIds db -> laneDistinct db ->
  uniqueIds (snd (putClient param b db))
  /\ laneDistinct (snd (putClient param b db)).
Proof.
  intros Hu Hd. split.
  - unfold uniqueIds. now rewrite putClient_keeps_keys.
  - destruct (putClient_cases param b db) as [(client & Hc & ->) | (_ & -> & _)];
      [now apply updateCode_distinct | assumption].
Qed.

Lemma laneDistinctb_sound (db : Db) :
  laneDistinctb db = true -> laneDistinct db.
Proof.
  unfold laneDistinctb. rewrite forallb_forall. intros H s.
  destruct (listByLane s db) as [|c r] eqn:E.
  - unfold lanePriorities. rewrite E. constructor.
  - assert (In c (listByLane s db)) as Hc by (rewrite E; now left).
    apply filter_In in Hc as [Hc Hs]. apply String.eqb_eq in Hs. subst s.
    now apply nodupb_NoDup, H.
Qed.

(** X1: on a table with unique ids where no two clients of a lane share a
    priority, every PUT (any id, any status, any integer priority, in
    range or not) leaves a table with the same ids in the same rows,
    still unique, and still without two clients of a lane sharing a
    priority. *)
Theorem put_never_duplicates_priority (param : string) (b : Body) (db : Db) :
  uniqueIds db -> laneDistinct db ->
  map id (snd (putClient param b db)) = map id db
  /\ uniqueIds (snd (putClient param b db))
  /\ laneDistinct (snd (putClient param b db)).
Proof.
  intros Hu Hd. split; [apply putClient_keeps_keys|].
  now apply putClient_keeps_distinct.
Qed.

Lemma put_never_duplicates_priority_witness :
  let db' := snd (putClient "1" (mkBody (Some "in-progress") (Some 50)) board) in
  map id db' = map id board /\ uniqueIds db' /\ laneDistinct db'.
Proof.
  apply (put_never_duplicates_priority "1"
           (mkBody (Some "in-progress") (Some 50)) board).
  - apply uniqueIdsb_sound. reflexivity.
  - apply laneDistinctb_sound. reflexivity.
Defined.

(** ** How many clients each lane holds *)

Lemma storedStatus_moves (client : Client) (b : Body) (s : string) :
  body_status b = Some s -> s <> "" -> storedStatus client b = s.
Proof.
  intros Hs H0. unfold storedStatus, truthy. rewrite Hs.
  apply String.eqb_neq in H0. now rewrite H0.
Qed.

Lemma storedStatus_stays (client : Client) (b : Body) :
  movesLane (body_status b) client = false ->
  storedStatus client b = status client.
Proof.
  unfold movesLane, storedStatus. destruct (body_status b) as [s|]; [|reflexivity].
  destruct (truthy s); [|reflexivity]. cbn [andb].
  destruct (String.eqb_spec s (status client)); [congruence | discriminate].
Qed.

Lemma movesLane_of_status (client : Client) (b : Body) (s : string) :
  body_status b = Some s -> s <> "" -> s <> status client ->
  movesLane (body_status b) client = true.
Proof. intros -> H0 H1. now apply movesLane_true. Qed.

Lemma updateCode_lane_sizes (n : jsnum) (client : Client) (b : Body) (db : Db)
  (t : string) :
  uniqueIds db -> getById n db = Some client ->
  (length (listByLane t (updateCode n client b db))
   + (if movesLane (body_status b) client && (t =? status client)%string
      then 1 else 0)
   = length (listByLane t db)
     + (if movesLane (body_status b) client && (t =? storedStatus client b)%string
        then 1 else 0))%nat.
Proof.
  intros Hu Hc.
  pose proof (Permutation_length (lane_before_cases n db client Hu Hc t)) as Hb.
  rewrite lanePriorities_length in Hb.
  destruct (updateCode_form n client b db)
    as [(s & p & Hs0 & Hs & Hbs & _ & ->)
       | [(s & Hs0 & Hs & Hbs & _ & ->)
         | [(p & Hmv & _ & _ & ->) | (Hmv & _ & ->)]]].
  - rewrite (movesLane_of_status client b s), (storedStatus_moves client b s)
      by assumption.
    pose proof (Permutation_length
                  (lanes_laneChangeAt n db client Hu Hc s p t Hs)) as Ha.
    rewrite lanePriorities_length in Ha. rewrite Ha, Hb. cbn [andb].
    destruct (String.eqb_spec t (status client)) as [-> | Hne].
    + destruct (String.eqb_spec (status client) s); [congruence|].
      rewrite length_map. cbn [length]. lia.
    + destruct (String.eqb_spec t s); cbn [length]; rewrite ?length_map; lia.
  - rewrite (movesLane_of_status client b s), (storedStatus_moves client b s)
      by assumption.
    pose proof (Permutation_length
                  (lanes_laneChangeAppend n db client Hu Hc s
                     (spec_maxPriorityInLane s db + 1) t Hs)) as Ha.
    rewrite lanePriorities_length in Ha. rewrite Ha, Hb. cbn [andb].
    destruct (String.eqb_spec t (status client)) as [-> | Hne].
    + destruct (String.eqb_spec (status client) s); [congruence|].
      rewrite length_map. cbn [length]. lia.
    + destruct (String.eqb_spec t s); cbn [length]; lia.
  - rewrite Hmv. cbn [andb].
    pose proof (Permutation_length (lanes_rerankAt n db client Hu Hc p t)) as Ha.
    rewrite lanePriorities_length in Ha. rewrite Ha, Hb.
    destruct (String.eqb_spec t (status client)); cbn [length];
      rewrite ?length_map; lia.
  - rewrite Hmv. reflexivity.
Qed.

(** X2: on a table with unique ids, a successful PUT that changes the
    lane takes exactly one client out of the old lane and puts exactly one
    into the new lane; every other lane, and every lane when the lane does
    not change, keeps its number of clients. *)
Theorem put_lane_sizes (param : string) (b : Body) (db : Db) (client : Client)
  (t : string) :
  uniqueIds db -> getById (parseInt param) db = Some client ->
  (length (listByLane t (snd (putClient param b db)))
   + (if movesLane (body_status b) client && (t =? status client)%string
      then 1 else 0)
   = length (listByLane t db)
     + (if movesLane (body_status b) client && (t =? storedStatus client b)%string
        then 1 else 0))%nat.
Proof.
  intros Hu Hc. rewrite (putClient_found param b db client Hc). cbn [snd].
  now apply updateCode_lane_sizes.
Qed.

Lemma put_lane_sizes_witness :
  (length (listByLane "backlog"
             (snd (putClient "1" (mkBody (Some "in-progress") None) board)))
   + 1 = length (listByLane "backlog" board) + 0)%nat.
Proof.
  apply (put_lane_sizes "1" (mkBody (Some "in-progress") None) board P1
           "backlog").
  - apply uniqueIdsb_sound. reflexivity.
  - reflexivity.
Defined.

(** ** The client after the update *)

Lemma updateCode_stored (n : jsnum) (client : Client) (b : Body) (db : Db) :
  getById n db = Some client ->
  getById n (updateCode n client b db)
  = Some (set_status_priority (storedStatus client b)
            (storedPriority client b db) client).
Proof.
  intros Hc. pose proof (client_matches n db client Hc) as Hm.
  unfold storedPriority.
  destruct (updateCode_form n client b db)
    as [(s & p & Hs0 & Hs & Hbs & Hbp & ->)
       | [(s & Hs0 & Hs & Hbs & Hbp & ->)
         | [(p & Hmv & Hbp & _ & ->) | (Hmv & Hbp & ->)]]].
  - rewrite find_map_keep_id by apply spec_laneChangeAt_id.
    rewrite Hc, Hbp, (storedStatus_moves client b s) by assumption.
    cbn [option_map]. unfold spec_laneChangeAt. now rewrite Hm.
  - rewrite find_map_keep_id by apply spec_laneChangeAppend_id.
    rewrite Hc, Hbp, (movesLane_of_status client b s),
      (storedStatus_moves client b s) by assumption.
    cbn [option_map]. unfold spec_laneChangeAppend. now rewrite Hm.
  - rewrite find_map_keep_id by apply spec_rerankAt_id.
    rewrite Hc, Hbp, storedStatus_stays by assumption.
    cbn [option_map]. unfold spec_rerankAt. now rewrite Hm.
  - rewrite Hc, Hmv, storedStatus_stays by assumption.
    replace (match body_priority b with Some p => p | None => priority client end)
      with (priority client) by (destruct Hbp as [-> | ->]; reflexivity).
    now destruct client.
Qed.

(** X3: after a successful PUT, [GET /api/v1/clients/:id] with the same
    id answers 200 with the addressed client, its id, name and
    description unchanged; its status is the requested one when a
    non-empty status was sent and the old one otherwise; its priority is
    the requested one when a priority was sent, one more than the highest
    priority of the destination lane when the lane changed without a
    priority, and the old one otherwise. *)
Theorem get_after_put (param : string) (b : Body) (db : Db) (client : Client) :
  getById (parseInt param) db = Some client ->
  getClient param (snd (putClient param b db))
  = mkResponse 200
      (SendClient
         (Some (mkClient (id client) (name client) (description client)
                  (storedStatus client b) (storedPriority client b db)))).
Proof.
  intros Hc. rewrite (putClient_found param b db client Hc). cbn [snd].
  pose proof (updateCode_stored _ client b db Hc) as Hs.
  unfold getClient, validateId.
  destruct (getById_Num _ _ _ Hc) as (i & E & _). rewrite E in *.
  cbn [isNaN]. now rewrite Hs.
Qed.

Lemma get_after_put_witness :
  getClient "1"
    (snd (putClient "1" (mkBody (Some "in-progress") None) board))
  = mkResponse 200 (SendClient (Some (mkClient 1 "P1" "" "in-progress" 3))).
Proof.
  apply (get_after_put "1" (mkBody (Some "in-progress") None) board P1).
  reflexivity.
Defined.

(** ** When contiguity is lost *)

(** X4: on a table with unique ids and contiguous lanes, a successful PUT
    whose priority lies outside the range of the lane it goes to (1..N+1
    when the lane changes, 1..N when it does not) leaves a lane whose
    priorities are not [{1..N}]. *)
Theorem put_out_of_range_breaks_contiguity (param : string) (b : Body)
  (db : Db) (client : Client) :
  uniqueIds db -> laneInvariant db ->
  getById (parseInt param) db = Some client ->
  ~ priorityFits client b db ->
  ~ laneInvariant (snd (putClient param b db)).
Proof.
  intros Hu Hinv Hc Hfit Hafter.
  set (n := parseInt param) in *.
  rewrite (putClient_found param b db client Hc) in Hafter. cbn [snd] in Hafter.
  fold n in Hafter.
  pose proof (updateCode_stored n client b db Hc) as Hst.
  pose proof (updateCode_lane_sizes n client b db (storedStatus client b) Hu Hc)
    as Hsz.
  unfold priorityFits in Hfit.
  destruct (body_priority b) as [p|] eqn:Hp; [|now apply Hfit].
  (* the stored row sits in its lane with priority [p] *)
  assert (In p (lanePriorities (storedStatus client b)
                  (updateCode n client b db))) as Hin.
  { unfold getById in Hst. apply find_some in Hst as [Hrow _].
    unfold storedPriority in Hrow. rewrite Hp in Hrow.
    unfold lanePriorities, listByLane.
    change p with (priority (set_status_priority (storedStatus client b) p client)).
    apply in_map, filter_In. split; [exact Hrow|].
    unfold inLane. cbn [status set_status_priority]. apply String.eqb_refl. }
  apply (Hafter (storedStatus client b)) in Hin.
  rewrite lanePriorities_length in Hin.
  rewrite String.eqb_refl, andb_true_r in Hsz.
  destruct (movesLane (body_status b) client) eqn:Hmv.
  - destruct (body_status b) as [s|] eqn:Hs; [|discriminate].
    pose proof Hmv as Hmv'. unfold movesLane, truthy in Hmv'.
    apply andb_true_iff in Hmv' as [Ht Hd].
    apply negb_true_iff, String.eqb_neq in Ht, Hd.
    rewrite (storedStatus_moves client b s) in * by assumption.
    destruct (String.eqb_spec s (status client)); [congruence|].
    cbn [andb] in Hsz. apply Hfit. lia.
  - rewrite storedStatus_stays in * by assumption.
    cbn [andb] in Hsz. apply Hfit. lia.
Qed.

Lemma put_out_of_range_breaks_contiguity_witness :
  ~ laneInvariant (snd (putClient "1" (mkBody None (Some 0)) board)).
Proof.
  apply (put_out_of_range_breaks_contiguity "1" (mkBody None (Some 0)) board P1).
  - apply uniqueIdsb_sound. reflexivity.
  - apply laneInvariantb_sound. reflexivity.
  - reflexivity.
  - unfold priorityFits. simpl. lia.
Defined.

(** ** Ids that resolve *)

Lemma getById_spec (n : jsnum) (db : Db) :
  (forall c, getById n db = Some c -> In c db /\ n = Num (id c))
  /\ (getById n db = None -> forall c, In c db -> n <> Num (id c)).
Proof.
  unfold getById. split.
  - intros c H. apply find_some in H as [Hin Hm]. split; [assumption|].
    destruct n as [|i]; [discriminate|]. cbn [idMatches] in Hm.
    apply Z.eqb_eq in Hm. now subst.
  - intros H c Hin E. apply (find_none _ _ H) in Hin.
    subst n. cbn [idMatches] in Hin. now rewrite Z.eqb_refl in Hin.
Qed.

(** X5: [validateId] accepts an id exactly when it is a number equal to
    the id of some row of the table; NaN and numbers that match no row
    are rejected. *)
Theorem validateId_accepts_existing (db : Db) (n : jsnum) :
  validateId db n = Valid <-> exists c, In c db /\ n = Num (id c).
Proof.
  unfold validateId. split.
  - destruct n as [|i]; cbn [isNaN]; [discriminate|].
    destruct (getById (Num i) db) as [c|] eqn:Hc; [|discriminate].
    intros _. exists c. now apply getById_spec.
  - intros (c & Hin & ->). cbn [isNaN].
    destruct (getById (Num (id c)) db) as [c'|] eqn:Hc; [reflexivity|].
    exfalso. exact (proj2 (getById_spec _ _) Hc c Hin eq_refl).
Qed.

(** X6: [GET /api/v1/clients/:id] answers either 200 with a row of the
    table whose id is the parsed id, or 400 with a validation message when
    no row has that id; with unique ids the row sent is the only one with
    that id. *)
Theorem getClient_answers (param : string) (db : Db) :
  (exists c, getClient param db = mkResponse 200 (SendClient (Some c))
             /\ In c db /\ parseInt param = Num (id c)
             /\ (uniqueIds db ->
                 forall c', In c' db -> id c' = id c -> c' = c))
  \/ (exists m, getClient param db = mkResponse 400 (SendMessage m)
                /\ message m = "Invalid id provided."
                /\ forall c, In c db -> parseInt param <> Num (id c)).
Proof.
  unfold getClient, validateId.
  destruct (getById (parseInt param) db) as [c|] eqn:Hc.
  - left. exists c. destruct (proj1 (getById_spec _ _) c Hc) as [Hin E].
    rewrite E in *. cbn [isNaN]. repeat split; try assumption.
    intros Hu c' Hin' Hid. apply (unique_row (Num (id c)) db c c' Hu Hc Hin').
    cbn [idMatches]. now apply Z.eqb_eq.
  - right. pose proof (proj2 (getById_spec _ _) Hc) as Hnone.
    destruct (isNaN (parseInt param)); eexists; repeat split; assumption.
Qed.

(** X7: [PUT /api/v1/clients/:id] answers only 200 or 400, with the same
    code as [GET /api/v1/clients/:id] for that id; it answers 200 exactly
    when the id resolves, and then the list it sends is the table it
    leaves; on 400 the table is unchanged. *)
Theorem putClient_answers (param : string) (b : Body) (db : Db) :
  statusCode (fst (putClient param b db)) = statusCode (getClient param db)
  /\ (statusCode (fst (putClient param b db)) = 200
      \/ statusCode (fst (putClient param b db)) = 400)
  /\ (statusCode (fst (putClient param b db)) = 200
      <-> exists c, In c db /\ parseInt param = Num (id c))
  /\ (statusCode (fst (putClient param b db)) = 200 ->
      sent (fst (putClient param b db)) = SendClients (snd (putClient param b db)))
  /\ (statusCode (fst (putClient param b db)) = 400 ->
      snd (putClient param b db) = db).
Proof.
  assert (statusCode (getClient param db)
          = match getById (parseInt param) db with
            | Some _ => 200
            | None => 400
            end) as Hget.
  { unfold getClient, validateId.
    destruct (getById (parseInt param) db) as [c|] eqn:Hc.
    - destruct (getById_Num _ _ _ Hc) as (i & E & _). rewrite E in *.
      reflexivity.
    - now destruct (isNaN (parseInt param)). }
  rewrite Hget.
  destruct (putClient_cases param b db)
    as [(client & Hc & ->) | (Hc & Hdb & Hcode)].
  - rewrite Hc. cbn [fst snd statusCode sent].
    repeat split; try reflexivity; try (now left); try discriminate.
    intros _. exists client. now apply getById_spec.
  - rewrite Hc, Hcode, Hdb.
    repeat split; try reflexivity; try (now right); try discriminate.
    intros (c & Hin & E). exfalso.
    exact (proj2 (getById_spec _ _) Hc c Hin E).
Qed.

(** ** The list route *)

(** X8: [GET /api/v1/clients] answers 400 exactly when the status filter
    is a non-empty string other than the three lanes; otherwise it answers
    200 with rows of the table in table order: the rows whose status is
    the filter when the filter is one of the three lanes, and the whole
    table when the filter is absent or empty. *)
Theorem getClients_answers (q : option string) (db : Db) :
  let known s := s = "backlog" \/ s = "in-progress" \/ s = "complete" in
  (statusCode (getClients q db) = 400
   <-> exists s, q = Some s /\ s <> "" /\ ~ known s)
  /\ (forall s, q = Some s -> known s ->
        exists l, getClients q db = mkResponse 200 (SendClients l)
                  /\ l = filter (fun c => (status c =? s)%string) db
                  /\ forall c, In c l <-> In c db /\ status c = s)
  /\ (q = None \/ q = Some "" ->
        getClients q db = mkResponse 200 (SendClients db)).
Proof.
  intros known. split; [|split].
  - unfold getClients, truthy. destruct q as [s|].
    + destruct (String.eqb_spec s ""); cbn [negb].
      * split; [discriminate|]. intros (s' & E & H0 & _). congruence.
      * destruct (String.eqb_spec s "backlog"),
          (String.eqb_spec s "in-progress"),
          (String.eqb_spec s "complete"); cbn [negb andb statusCode];
          (split;
           [ try discriminate; intros _; exists s; repeat split; try assumption;
             unfold known; intuition congruence
           | intros (s' & E & _ & Hk); injection E as <-;
             try reflexivity; exfalso; apply Hk; unfold known; tauto ]).
    + split; [discriminate|]. intros (s & E & _). discriminate.
  - intros s -> Hk. exists (listByLane s db).
    split; [|split; [reflexivity|]].
    + unfold getClients, truthy.
      destruct Hk as [-> | [-> | ->]]; reflexivity.
    + intros c. unfold listByLane, inLane. rewrite filter_In.
      now rewrite String.eqb_eq.
  - intros [-> | ->]; reflexivity.
Qed.

Lemma getClients_answers_witness :
  exists l,
    getClients (Some "in-progress") board = mkResponse 200 (SendClients l)
    /\ l = filter (fun c => (status c =? "in-progress")%string) board
    /\ forall c, In c l <-> In c board /\ status c = "in-progress".
Proof.
  apply (proj1 (proj2 (getClients_answers (Some "in-progress") board))
           "in-progress").
  - reflexivity.
  - right. left. reflexivity.
Defined.

(** ** The clients that are not addressed *)

Lemma Forall2_same_rows (R : Client -> Client -> Prop) (db : Db) :
  (forall c, In c db -> R c c) -> Forall2 R db db.
Proof.
  intros H. rewrite <- (map_id db) at 2. now apply Forall2_map_rows.
Qed.

(** X9: a PUT never moves a client other than the addressed one to
    another lane, and changes its priority by at most one. *)
Theorem put_shifts_others_by_one (param : string) (b : Body) (db : Db) :
  Forall2
    (fun c c' =>
       idMatches (parseInt param) c = false ->
       status c' = status c /\ -1 <= priority c' - priority c <= 1)
    db (snd (putClient param b db)).
Proof.
  set (n := parseInt param).
  destruct (putClient_cases param b db) as [(client & Hc & ->) | (_ & -> & _)];
    [|apply Forall2_same_rows; intros; split; [reflexivity | lia]].
  cbn [snd]. fold n.
  destruct (updateCode_form n client b db)
    as [(s & p & _ & _ & _ & _ & ->)
       | [(s & _ & _ & _ & _ & ->)
         | [(p & _ & _ & _ & ->) | (_ & _ & ->)]]];
    [apply Forall2_map_rows; intros c _ Hm ..
    | apply Forall2_same_rows; intros; split; [reflexivity | lia]].
  - unfold spec_laneChangeAt. rewrite Hm. split_tests; split; lia || reflexivity.
  - unfold spec_laneChangeAppend. rewrite Hm.
    split_tests; split; lia || reflexivity.
  - unfold spec_rerankAt. rewrite Hm. split_tests; split; lia || reflexivity.
Qed.

Lemma other_priority_differs (n : jsnum) (db : Db) (client c : Client) :
  uniqueIds db -> laneDistinct db -> getById n db = Some client ->
  In c db -> idMatches n c = false -> status c = status client ->
  priority c <> priority client.
Proof.
  intros Hu Hd Hc Hin Hm Hs E.
  pose proof (old_lane_perm n db client Hu Hc) as HP.
  assert (NoDup (priority client
                   :: lanePriorities (status client) (others n db))) as Hnd
    by (eapply Permutation_NoDup; [exact HP | apply Hd]).
  inversion Hnd as [|? ? Hnot _]; subst. apply Hnot.
  rewrite <- E. unfold lanePriorities, listByLane. apply in_map, filter_In.
  split; [now apply in_others|]. unfold inLane. now apply String.eqb_eq.
Qed.

(** X10: on a table with unique ids where no two clients of a lane share
    a priority, a successful PUT keeps the relative order of any two
    clients of one lane other than the addressed one: they stay in one
    lane, and the one ranked above stays above. *)
Theorem put_keeps_order_of_others (param : string) (b : Body) (db : Db)
  (client : Client) (i j : nat) (c1 c2 c1' c2' : Client) :
  uniqueIds db -> laneDistinct db ->
  getById (parseInt param) db = Some client ->
  nth_error db i = Some c1 -> nth_error db j = Some c2 ->
  nth_error (snd (putClient param b db)) i = Some c1' ->
  nth_error (snd (putClient param b db)) j = Some c2' ->
  idMatches (parseInt param) c1 = false ->
  idMatches (parseInt param) c2 = false ->
  status c1 = status c2 -> priority c1 < priority c2 ->
  status c1' = status c2' /\ priority c1' < priority c2'.
Proof.
  set (n := parseInt param).
  intros Hu Hd Hc H1 H2 H1' H2' Hm1 Hm2 Hs Hlt.
  rewrite (putClient_found param b db client Hc) in H1', H2'.
  cbn [snd] in H1', H2'. fold n in H1', H2'.
  pose proof (other_priority_differs n db client c1 Hu Hd Hc
                (nth_error_In _ _ H1) Hm1) as Hf1.
  pose proof (other_priority_differs n db client c2 Hu Hd Hc
                (nth_error_In _ _ H2) Hm2) as Hf2.
  assert (forall c1' c2',
            status c1' = status c1 -> status c2' = status c2 ->
            (status c1 = status client ->
             priority c1 <> priority client -> priority c2 <> priority client ->
             priority c1' < priority c2') ->
            (status c1 <> status client -> priority c1' < priority c2') ->
            status c1' = status c2' /\ priority c1' < priority c2') as Hgoal.
  { intros d1 d2 E1 E2 Hin Hout. split; [congruence|].
    destruct (String.eqb_spec (status c1) (status client)) as [Ec | Ec].
    - apply Hin; [assumption | now apply Hf1 | apply Hf2; congruence].
    - now apply Hout. }
  destruct (updateCode_form n client b db)
    as [(s & p & _ & Hne & _ & _ & E)
       | [(s & _ & Hne & _ & _ & E)
         | [(p & _ & _ & _ & E) | (_ & _ & E)]]];
    rewrite E in H1', H2';
    try (rewrite nth_error_map in H1', H2';
         rewrite H1 in H1'; rewrite H2 in H2';
         cbn [option_map] in H1', H2';
         injection H1' as <-; injection H2' as <-).
  - apply Hgoal; unfold spec_laneChangeAt; rewrite ?Hm1, ?Hm2;
      try intros Hst Hq1 Hq2; try intros Hst; split_tests.
  - apply Hgoal; unfold spec_laneChangeAppend; rewrite ?Hm1, ?Hm2;
      try intros Hst Hq1 Hq2; try intros Hst; split_tests.
  - apply Hgoal; unfold spec_rerankAt; rewrite ?Hm1, ?Hm2;
      try intros Hst Hq1 Hq2; try intros Hst; split_tests.
  - rewrite H1 in H1'. rewrite H2 in H2'.
    injection H1' as <-; injection H2' as <-. now split.
Qed.

Lemma put_keeps_order_of_others_witness :
  status (set_priority 1 P2) = status (set_priority 2 P3)
  /\ priority (set_priority 1 P2) < priority (set_priority 2 P3).
Proof.
  apply (put_keeps_order_of_others "1" (mkBody (Some "in-progress") (Some 1))
           board P1 1%nat 2%nat P2 P3 (set_priority 1 P2) (set_priority 2 P3));
    try reflexivity.
  - apply uniqueIdsb_sound. reflexivity.
  - apply laneDistinctb_sound. reflexivity.
Defined.

(** ** Undoing an update *)

Lemma put_rerankAt (param : string) (db : Db) (client : Client) (p : Z) :
  getById (parseInt param) db = Some client -> p <> priority client ->
  snd (putClient param (mkBody (Some (status client)) (Some p)) db)
  = map (spec_rerankAt (parseInt param) client p) db.
Proof.
  intros Hc Hp. rewrite (putClient_found _ _ _ client Hc). cbn [snd].
  apply updateCode_rerankAt; [|reflexivity | assumption].
  now apply movesLane_arrived.
Qed.

(** X11: on a table with unique ids where no two clients of a lane share
    a priority, any successful PUT is undone by a second PUT on the same id
    that sends the client's former status and former priority: the table
    is again exactly as it was.  (When the first PUT changed the lane, the
    former status must be a non-empty string for the handler to read it
    as a status.) *)
Theorem put_undo (param : string) (b : Body) (db : Db) (client : Client) :
  uniqueIds db -> laneDistinct db ->
  getById (parseInt param) db = Some client ->
  (movesLane (body_status b) client = true -> status client <> "") ->
  snd (putClient param
         (mkBody (Some (status client)) (Some (priority client)))
         (snd (putClient param b db)))
  = db.
Proof.
  intros Hu Hd Hc HA.
  set (n := parseInt param) in *.
  pose proof (client_matches n db client Hc) as Hm.
  assert (forall c, In c db -> idMatches n c = false ->
                    status c = status client ->
                    priority c <> priority client) as Hfree
    by (intros c; now apply other_priority_differs).
  rewrite (putClient_found param b db client Hc). cbn [snd]. fold n.
  pose proof (updateCode_stored n client b db Hc) as Hc1.
  destruct (updateCode_form n client b db)
    as [(s & p & Hs0 & Hs & Hbs & Hbp & E)
       | [(s & Hs0 & Hs & Hbs & Hbp & E)
         | [(p & Hmv & Hbp & Hp & E) | (Hmv & Hbp & E)]]];
    rewrite E in *.
  - pose proof (HA (movesLane_of_status client b s Hbs Hs0 Hs)) as HA'.
    rewrite (put_laneChangeAt param _ _ (status client) (priority client) Hc1)
      by (assumption
          || (cbn [status set_status_priority];
              rewrite (storedStatus_moves client b s) by assumption;
              congruence)).
    fold n. rewrite (storedStatus_moves client b s) by assumption.
    unfold storedPriority. rewrite Hbp.
    rewrite map_map. rewrite <- (map_id db) at 2.
    apply map_ext_in. intros c Hin.
    destruct (idMatches n c) eqn:Hmc.
    + rewrite (unique_row n db client c Hu Hc Hin Hmc).
      unfold spec_laneChangeAt at 2. rewrite Hm.
      unfold spec_laneChangeAt.
      rewrite (idMatches_id n client) by reflexivity. rewrite Hm.
      now apply replaced_back.
    + pose proof (Hfree c Hin Hmc) as Hc2.
      unfold spec_laneChangeAt. rewrite Hmc.
      split_tests;
        rewrite ?(idMatches_id n c) by reflexivity; rewrite ?Hmc;
        split_tests; destruct c; cbn in *; subst; try congruence;
        try (exfalso; lia); try (exfalso; apply Hc2; [congruence | lia]);
        f_equal; lia.
  - pose proof (HA (movesLane_of_status client b s Hbs Hs0 Hs)) as HA'.
    rewrite (put_laneChangeAt param _ _ (status client) (priority client) Hc1)
      by (assumption
          || (cbn [status set_status_priority];
              rewrite (storedStatus_moves client b s) by assumption;
              congruence)).
    fold n. rewrite (storedStatus_moves client b s) by assumption.
    unfold storedPriority.
    rewrite Hbp, (movesLane_of_status client b s) by assumption.
    rewrite (storedStatus_moves client b s) by assumption.
    set (pm := spec_maxPriorityInLane s db + 1).
    rewrite map_map. rewrite <- (map_id db) at 2.
    apply map_ext_in. intros c Hin.
    destruct (idMatches n c) eqn:Hmc.
    + rewrite (unique_row n db client c Hu Hc Hin Hmc).
      unfold spec_laneChangeAppend. rewrite Hm.
      unfold spec_laneChangeAt.
      rewrite (idMatches_id n client) by reflexivity. rewrite Hm.
      now apply replaced_back.
    + pose proof (Hfree c Hin Hmc) as Hc2.
      pose proof (spec_max_upper s db c Hin) as Hmax. fold pm in Hmax.
      unfold spec_laneChangeAt, spec_laneChangeAppend. rewrite Hmc.
      split_tests;
        rewrite ?(idMatches_id n c) by reflexivity; rewrite ?Hmc;
        split_tests; destruct c; cbn in *; subst; try congruence;
        try (exfalso; lia); try (exfalso; apply Hc2; [congruence | lia]);
        try (specialize (Hmax eq_refl); exfalso; lia);
        f_equal; lia.
  - rewrite storedStatus_stays in Hc1 by assumption.
    unfold storedPriority in Hc1. rewrite Hbp in Hc1.
    change (set_status_priority (status client) p client)
      with (set_priority p client) in Hc1.
    pose proof (put_rerankAt param _ (set_priority p client) (priority client)
                  Hc1) as Hsecond.
    cbn [status priority set_priority] in Hsecond.
    rewrite Hsecond by congruence. fold n.
    rewrite map_map. rewrite <- (map_id db) at 2.
    apply map_ext_in. intros c Hin.
    destruct (idMatches n c) eqn:Hmc.
    + rewrite (unique_row n db client c Hu Hc Hin Hmc).
      unfold spec_rerankAt at 2. rewrite Hm.
      unfold spec_rerankAt.
      rewrite (idMatches_id n client) by reflexivity. rewrite Hm.
      now destruct client.
    + pose proof (Hfree c Hin Hmc) as Hc2.
      unfold spec_rerankAt. rewrite Hmc.
      split_tests;
        rewrite ?(idMatches_id n c) by reflexivity; rewrite ?Hmc;
        split_tests; destruct c; cbn in *; subst; try congruence;
        try (exfalso; lia); try (exfalso; apply Hc2; [congruence | lia]);
        f_equal; lia.
  - rewrite (putClient_found param _ db client Hc). cbn [snd].
    apply updateCode_noop; [now apply movesLane_arrived | now right].
Qed.

Lemma put_undo_witness :
  snd (putClient "3" (mkBody (Some "backlog") (Some 3))
         (snd (putClient "3" (mkBody (Some "in-progress") (Some 7)) board)))
  = board.
Proof.
  apply (put_undo "3" (mkBody (Some "in-progress") (Some 7)) board P3).
  - apply uniqueIdsb_sound. reflexivity.
  - apply laneDistinctb_sound. reflexivity.
  - reflexivity.
  - intros _. simpl. discriminate.
Defined.

(** ** Sequences of requests *)



Lemma serve_cons (r : Request) (rs : list Request) (db : Db) :
  serve (r :: rs) db
  = (fst (handle r db) :: fst (serve rs (snd (handle r db))),
     snd (serve rs (snd (handle r db)))).
Proof.
  cbn [serve]. destruct (handle r db) as [resp db1]. cbn [fst snd].
  now destruct (serve rs db1).
Qed.



Lemma updateCode_keeps_contiguous (n : jsnum) (client : Client) (b : Body)
  (db : Db) :
  uniqueIds db -> laneInvariant db -> getById n db = Some client ->
  priorityFits client b db ->
  laneInvariant (updateCode n client b db).
Proof.
  intros Hu Hinv Hc Hfit. unfold priorityFits in Hfit.
  destruct (updateCode_form n client b db)
    as [(s & p & Hs0 & Hs & Hbs & Hbp & ->)
       | [(s & Hs0 & Hs & Hbs & Hbp & ->)
         | [(p & Hmv & Hbp & Hp & ->) | (Hmv & Hbp & ->)]]].
  - rewrite Hbp, Hbs, movesLane_true in Hfit by assumption.
    now apply invariant_laneChangeAt.
  - replace (spec_maxPriorityInLane s db)
      with (Z.of_nat (length (listByLane s db))).
    + now apply invariant_laneChangeAppend.
    + rewrite <- maxPriorityOrZero_spec. unfold maxPriority.
      fold (lanePriorities s db). rewrite contiguous_max by apply Hinv.
      now rewrite lanePriorities_length.
  - rewrite Hbp, Hmv in Hfit. now apply invariant_rerankAt.
  - assumption.
Qed.

(** X13: a table with unique ids and contiguous lanes stays so over any
    sequence of requests in which every PUT that reaches a client carries
    a priority within the range of the lane it goes to at the time it is
    served (or no priority): after the whole sequence every lane's
    priorities are again [{1..N}]. *)
Theorem serve_keeps_contiguity (rs : list Request) (db : Db) :
  uniqueIds db -> laneInvariant db -> allFit rs db ->
  uniqueIds (snd (serve rs db)) /\ laneInvariant (snd (serve rs db)).
Proof.
  revert db. induction rs as [|r rs IH]; intros db Hu Hinv Hfit.
  - now split.
  - rewrite serve_cons. cbn [snd]. destruct Hfit as [Hr Hrest].
    apply IH; [| |exact Hrest].
    + destruct r as [q | param | param b]; cbn [handle snd]; try assumption.
      unfold uniqueIds. now rewrite putClient_keeps_keys.
    + destruct r as [q | param | param b]; cbn [handle snd]; try assumption.
      cbn [requestFits] in Hr.
      destruct (putClient_cases param b db)
        as [(client & Hc & ->) | (_ & -> & _)]; [|assumption].
      rewrite Hc in Hr. now apply updateCode_keeps_contiguous.
Qed.

Lemma serve_keeps_contiguity_witness :
  let rs := [PutClient "1" (mkBody (Some "in-progress") (Some 1));
             GetClients None;
             PutClient "4" (mkBody None (Some 3));
             PutClient "2" (mkBody (Some "complete") None)] in
  uniqueIds (snd (serve rs board)) /\ laneInvariant (snd (serve rs board)).
Proof.
  apply (serve_keeps_contiguity
           [PutClient "1" (mkBody (Some "in-progress") (Some 1));
            GetClients None;
            PutClient "4" (mkBody None (Some 3));
            PutClient "2" (mkBody (Some "complete") None)] board).
  - apply uniqueIdsb_sound. reflexivity.
  - apply laneInvariantb_sound. reflexivity.
  - simpl. unfold priorityFits. simpl. repeat split; lia.
Defined.

(** X14: on a table with unique ids and contiguous lanes, a PUT that
    changes the lane without giving a priority puts the client last in
    the destination lane: its priority is the number of clients the lane
    holds after the move. *)
Theorem append_lands_last (param : string) (b : Body) (db : Db)
  (client : Client) (s : string) :
  uniqueIds db -> laneInvariant db ->
  getById (parseInt param) db = Some client ->
  body_status b = Some s -> s <> "" -> s <> status client ->
  body_priority b = None ->
  exists c',
    getById (parseInt param) (snd (putClient param b db)) = Some c'
    /\ status c' = s
    /\ priority c'
       = Z.of_nat (length (listByLane s (snd (putClient param b db)))).
Proof.
  intros Hu Hinv Hc Hbs Hs0 Hs Hbp.
  set (n := parseInt param) in *.
  rewrite (putClient_found param b db client Hc). cbn [snd]. fold n.
  pose proof (updateCode_stored n client b db Hc) as Hst.
  pose proof (updateCode_lane_sizes n client b db s Hu Hc) as Hsz.
  rewrite (movesLane_of_status client b s),
    (storedStatus_moves client b s) in Hsz by assumption.
  rewrite String.eqb_refl in Hsz. cbn [andb] in Hsz.
  destruct (String.eqb_spec s (status client)); [congruence|].
  eexists. split; [exact Hst|].
  cbn [status priority set_status_priority].
  split; [now apply storedStatus_moves|].
  unfold storedPriority.
  rewrite Hbp, (movesLane_of_status client b s),
    (storedStatus_moves client b s) by assumption.
  rewrite <- maxPriorityOrZero_spec. unfold maxPriority.
  fold (lanePriorities s db). rewrite contiguous_max by apply Hinv.
  rewrite lanePriorities_length. lia.
Qed.

Lemma append_lands_last_witness :
  exists c',
    getById (Num 2) (snd (putClient "2" (mkBody (Some "in-progress") None) board))
    = Some c'
    /\ status c' = "in-progress"
    /\ priority c'
       = Z.of_nat
           (length (listByLane "in-progress"
                      (snd (putClient "2" (mkBody (Some "in-progress") None)
                              board)))).
Proof.
  apply (append_lands_last "2" (mkBody (Some "in-progress") None) board P2
           "in-progress"); try reflexivity; try discriminate.
  - apply uniqueIdsb_sound. reflexivity.
  - apply laneInvariantb_sound. reflexivity.
Defined.
